(** * python-json-patch: a shallow embedding of [jsonpatch.py]

    The development follows the module top to bottom: the JSON value tree
    and the Python container primitives the code relies on, path
    resolution ([locate], [_step]), the five patch operations, the patch
    container ([JsonPatch.apply], [_get_operation]) and the diff generator
    ([make_patch]).

    Modelling conventions.
    - A document is a tree, as [json.loads] builds it: no sub-object is
      shared between two places, nor with the values a patch carries.
      In-place mutation of the object that [locate] returns is therefore
      the replacement of the sub-tree found by walking all path segments
      but the last ([store], validated by [walk_store]).
    - A [dict] is an association list in insertion order with unique keys;
      numbers are integers (floats are left out).
    - Exceptions are values of [exn]; a computation that mutates the
      document and may raise is a function [value -> value * result A]
      whose first component is the document as the exception leaves it. *)

From Stdlib Require Import List ZArith Lia Bool String Ascii DecimalString.
From Stdlib Require DecimalNat.
Import ListNotations.
Local Open Scope string_scope.
Local Open Scope list_scope.
Local Open Scope Z_scope.

(** ** Value trees *)

#[local] Set Warnings "-register-all".

Inductive scalar : Type :=
| SNull
| SBool (b : bool)
| SNum (n : Z)
| SStr (s : string).

Inductive value : Type :=
| VScalar (s : scalar)
| VList (l : list value)
| VDict (d : list (string * value)).

Definition dict : Type := list (string * value).

(** The exceptions the module can raise.  [JsonPatchException] is the base
    class raised for malformed patches, [JsonPatchConflict] its subclass;
    the others are the Python built-ins that escape unguarded code. *)
Inductive exn : Type :=
| JsonPatchException
| JsonPatchConflict
| AssertionError
| ValueError
| IndexError
| KeyError
| AttributeError
| TypeError.

Inductive result (A : Type) : Type :=
| Ok (a : A)
| Raise (e : exn).
Arguments Ok {A} a.
Arguments Raise {A} e.

Definition rbind {A B} (r : result A) (k : A -> result B) : result B :=
  match r with
  | Ok a => k a
  | Raise e => Raise e
  end.

Definition of_option {A} (o : option A) (e : exn) : result A :=
  match o with
  | Some a => Ok a
  | None => Raise e
  end.

(** The last step of a location: a [dict] key or a [list] index. *)
Inductive key : Type :=
| KStr (s : string)
| KIdx (i : Z).

(** ** Python primitives *)

Module Py.

(** [s.split('/')]: never empty, [''.split('/') == ['']]. *)
Fixpoint split (sep : ascii) (s : string) : list string :=
  match s with
  | EmptyString => [EmptyString]
  | String c s' =>
      if Ascii.eqb c sep then EmptyString :: split sep s'
      else match split sep s' with
           | [] => [String c EmptyString]
           | part :: parts => String c part :: parts
           end
  end.

(** [sep.join(parts)]. *)
Definition join (sep : string) (parts : list string) : string :=
  String.concat sep parts.

(** [str(n)] for a non-negative index. *)
Definition str (n : nat) : string :=
  NilEmpty.string_of_uint (Nat.to_uint n).

Definition is_space (c : ascii) : bool :=
  let n := nat_of_ascii c in
  (((9 <=? n) && (n <=? 13)) || (n =? 32))%nat.

Definition digit_of (c : ascii) : option Z :=
  let n := nat_of_ascii c in
  if ((48 <=? n) && (n <=? 57))%nat then Some (Z.of_nat (n - 48)) else None.

Fixpoint lstrip (s : string) : string :=
  match s with
  | String c s' => if is_space c then lstrip s' else s
  | EmptyString => s
  end.

Fixpoint all_space (s : string) : bool :=
  match s with
  | String c s' => is_space c && all_space s'
  | EmptyString => true
  end.

Fixpoint digits (acc : Z) (s : string) : option Z :=
  match s with
  | EmptyString => Some acc
  | String c s' =>
      match digit_of c with
      | Some d => digits (10 * acc + d) s'
      | None => if all_space s then Some acc else None
      end
  end.

Definition unsigned (s : string) : option Z :=
  match s with
  | String c s' =>
      match digit_of c with
      | Some d => digits d s'
      | None => None
      end
  | EmptyString => None
  end.

(** [int(s)] on an ASCII string: surrounding white space, an optional
    sign, at least one decimal digit.  [None] stands for [ValueError].
    Digit grouping with underscores and non-ASCII digits are rejected,
    as the interpreters of the module's time did. *)
Definition int (s : string) : option Z :=
  match lstrip s with
  | String "-"%char s' => option_map Z.opp (unsigned s')
  | String "+"%char s' => unsigned s'
  | s' => unsigned s'
  end.

Definition len {A} (l : list A) : Z := Z.of_nat (List.length l).

(** [l[-1]]; [None] stands for [IndexError]. *)
Definition last_item {A} (l : list A) : option A :=
  last (map Some l) None.

(** Position of index [i] in a list of length [n], with Python's
    negative indices; [None] stands for [IndexError]. *)
Definition norm_index (n i : Z) : option nat :=
  if 0 <=? i then (if i <? n then Some (Z.to_nat i) else None)
  else (if - n <=? i then Some (Z.to_nat (i + n)) else None).

(** [l[i]] *)
Definition list_getitem {A} (l : list A) (i : Z) : option A :=
  match norm_index (len l) i with
  | Some j => nth_error l j
  | None => None
  end.

(** [l[i] = v] *)
Definition list_setitem {A} (l : list A) (i : Z) (v : A) : option (list A) :=
  match norm_index (len l) i with
  | Some j => Some (firstn j l ++ v :: skipn (S j) l)
  | None => None
  end.

(** [del l[i]] *)
Definition list_delitem {A} (l : list A) (i : Z) : option (list A) :=
  match norm_index (len l) i with
  | Some j => Some (firstn j l ++ skipn (S j) l)
  | None => None
  end.

(** [l.insert(i, v)]: the position is clamped to [0 .. len l]. *)
Definition list_insert {A} (l : list A) (i : Z) (v : A) : list A :=
  let j := if i <? 0 then Z.max 0 (i + len l) else Z.min i (len l) in
  firstn (Z.to_nat j) l ++ v :: skipn (Z.to_nat j) l.

(** [d[k]]; [None] stands for [KeyError]. *)
Fixpoint dict_get {A} (d : list (string * A)) (k : string) : option A :=
  match d with
  | [] => None
  | (k', v) :: d' => if String.eqb k' k then Some v else dict_get d' k
  end.

(** [k in d] *)
Definition dict_contains {A} (d : list (string * A)) (k : string) : bool :=
  match dict_get d k with
  | Some _ => true
  | None => false
  end.

(** [d[k] = v]: an existing key keeps its place, a new one goes last. *)
Fixpoint dict_setitem {A} (d : list (string * A)) (k : string) (v : A)
  : list (string * A) :=
  match d with
  | [] => [(k, v)]
  | (k', v') :: d' =>
      if String.eqb k' k then (k', v) :: d'
      else (k', v') :: dict_setitem d' k v
  end.

(** [del d[k]]; [None] stands for [KeyError]. *)
Fixpoint dict_delitem {A} (d : list (string * A)) (k : string)
  : option (list (string * A)) :=
  match d with
  | [] => None
  | (k', v') :: d' =>
      if String.eqb k' k then Some d'
      else option_map (cons (k', v')) (dict_delitem d' k)
  end.

(** [x == y] on scalars: [bool] is a subclass of [int], so [True == 1]
    and [False == 0]; values of unrelated types are unequal. *)
Definition scalar_eq (x y : scalar) : bool :=
  match x, y with
  | SNull, SNull => true
  | SBool a, SBool b => Bool.eqb a b
  | SBool a, SNum n | SNum n, SBool a => (if a then 1 else 0) =? n
  | SNum n, SNum m => n =? m
  | SStr s, SStr t => String.eqb s t
  | _, _ => false
  end.

(** [a == b] on value trees: lists position by position, dicts by
    size and key-wise, whatever the order of insertion. *)
Fixpoint eq (a b : value) {struct a} : bool :=
  match a, b with
  | VScalar x, VScalar y => scalar_eq x y
  | VList xs, VList ys =>
      (fix eq_list (xs ys : list value) {struct xs} : bool :=
         match xs, ys with
         | [], [] => true
         | x :: xs', y :: ys' => eq x y && eq_list xs' ys'
         | _, _ => false
         end) xs ys
  | VDict d, VDict e =>
      (List.length d =? List.length e)%nat &&
      (fix eq_items (items : dict) {struct items} : bool :=
         match items with
         | [] => true
         | (k, v) :: items' =>
             match dict_get e k with
             | Some w => eq v w
             | None => false
             end && eq_items items'
         end) d
  | _, _ => false
  end.

(** [subobj[part]] *)
Definition getitem (subobj : value) (part : key) : result value :=
  match subobj, part with
  | VDict d, KStr k => of_option (dict_get d k) KeyError
  | VList l, KIdx i => of_option (list_getitem l i) IndexError
  | VDict _, KIdx _ => Raise KeyError
  | _, _ => Raise TypeError
  end.

(** [del subobj[part]], giving the container as the deletion leaves it. *)
Definition delitem (subobj : value) (part : key) : result value :=
  match subobj, part with
  | VDict d, KStr k => of_option (option_map VDict (dict_delitem d k)) KeyError
  | VList l, KIdx i => of_option (option_map VList (list_delitem l i)) IndexError
  | VDict _, KIdx _ => Raise KeyError
  | _, _ => Raise TypeError
  end.

(** [subobj[part] = v], giving the container as the store leaves it. *)
Definition setitem (subobj : value) (part : key) (v : value) : result value :=
  match subobj, part with
  | VDict d, KStr k => Ok (VDict (dict_setitem d k v))
  | VList l, KIdx i => of_option (option_map VList (list_setitem l i v)) IndexError
  | _, _ => Raise TypeError
  end.

End Py.

(** ** Computations on the document

    [M A] is a method body run against the caller's document: it yields
    the document as the body leaves it, together with the value returned
    or the exception raised.  Nothing is rolled back on an exception. *)

Definition M (A : Type) : Type := value -> value * result A.

Definition ret {A} (a : A) : M A := fun obj => (obj, Ok a).

Definition bind {A B} (m : M A) (k : A -> M B) : M B :=
  fun obj =>
    match m obj with
    | (obj', Ok a) => k a obj'
    | (obj', Raise e) => (obj', Raise e)
    end.

(** A computation that only inspects values already at hand. *)
Definition pure {A} (r : result A) : M A := fun obj => (obj, r).

(** The document the method was called on. *)
Definition read : M value := fun obj => (obj, Ok obj).

Notation "x <- m ;; k" := (bind m (fun x => k))
  (at level 61, m at next level, right associativity).
Notation "' pat <- m ;; k" := (bind m (fun x => match x with pat => k end))
  (at level 61, pat pattern, m at next level, right associativity).
Notation "m ;;; k" := (bind m (fun _ => k))
  (at level 61, right associativity).

(** ** Path resolution: [PatchOperation.locate] and [PatchOperation._step] *)

(** [_step(obj, loc_part, must_exist)]: one step of a [locate] call.  The
    [for variant in part_variants] loops run over a one-element list, so
    each is a single test. *)
Definition _step (obj : value) (loc_part : string) (must_exist : bool)
  : result (value * key) :=
  match obj with
  | VDict d =>
      match Py.dict_get d loc_part with
      | Some v => Ok (v, KStr loc_part)
      | None =>
          if must_exist then Raise JsonPatchConflict
          else Ok (obj, KStr loc_part)
      end
  | VList l =>
      match Py.int loc_part with
      | None => Raise ValueError
      | Some variant =>
          if variant >=? Py.len l then
            if must_exist then Raise JsonPatchConflict
            else Ok (obj, KIdx variant)
          else
            rbind (of_option (Py.list_getitem l variant) IndexError)
                  (fun v => Ok (v, KIdx variant))
      end
  | VScalar _ => Raise ValueError
  end.

(** [for part in parts[:-1]: obj, _ = self._step(obj, part)] *)
Fixpoint walk (obj : value) (parts : list string) : result value :=
  match parts with
  | [] => Ok obj
  | part :: parts' =>
      rbind (_step obj part true) (fun '(obj', _) => walk obj' parts')
  end.

(** [location.split('/')]; anything but a string has no [split]. *)
Definition split_location (location : value) : result (list string) :=
  match location with
  | VScalar (SStr s) => Ok (Py.split "/"%char s)
  | _ => Raise AttributeError
  end.

(** [locate(obj, location, last_must_exist)]: the container that holds the
    last step, and the last step itself. *)
Definition locate (obj : value) (location : value) (last_must_exist : bool)
  : result (value * key) :=
  rbind (split_location location) (fun parts =>
  match parts with
  | [] => Raise IndexError
  | first :: parts =>
      if negb (String.eqb first "") then Raise JsonPatchException
      else
        rbind (walk obj (removelast parts)) (fun obj =>
        rbind (of_option (Py.last_item parts) IndexError) (fun last_part =>
        rbind (_step obj last_part last_must_exist) (fun '(_, last_loc) =>
        Ok (obj, last_loc))))
  end).

(** The effect, on the whole document, of mutating in place the container
    reached through [parts]: the same steps as [walk], rebuilding the
    tree around the new container. *)
Fixpoint store (obj : value) (parts : list string) (new : value) : value :=
  match parts with
  | [] => new
  | part :: parts' =>
      match obj with
      | VDict d =>
          match Py.dict_get d part with
          | Some child => VDict (Py.dict_setitem d part (store child parts' new))
          | None => obj
          end
      | VList l =>
          match Py.int part with
          | Some i =>
              match Py.list_getitem l i with
              | Some child =>
                  match Py.list_setitem l i (store child parts' new) with
                  | Some l' => VList l'
                  | None => obj
                  end
              | None => obj
              end
          | None => obj
          end
      | VScalar _ => obj
      end
  end.

(** The steps leading to the container that [locate] returns. *)
Definition parent_parts (location : value) : list string :=
  match split_location location with
  | Ok (_ :: parts) => removelast parts
  | _ => []
  end.

(** The container found by [locate(obj, location)] now holds [new]. *)
Definition mutate (location : value) (new : value) : M unit :=
  fun obj => (store obj (parent_parts location) new, Ok tt).

(** ** Operations *)

Inductive op_cls : Type :=
| RemoveOperation
| AddOperation
| ReplaceOperation
| MoveOperation
| TestOperation.

(** [PatchOperation.__init__(self, location, operation)] *)
Record PatchOperation : Type := mkOp {
  cls : op_cls;
  location : value;
  operation : dict;
}.

(** [self.operation[k]] *)
Definition field (operation : dict) (k : string) : result value :=
  of_option (Py.dict_get operation k) KeyError.

(** [RemoveOperation.apply] *)
Definition RemoveOperation_apply (location : value) (operation : dict) : M unit :=
  obj <- read ;;
  '(subobj, part) <- pure (locate obj location true) ;;
  subobj' <- pure (Py.delitem subobj part) ;;
  mutate location subobj'.

(** The branches of [AddOperation.apply] once the location is resolved,
    giving the container as the insertion leaves it.  A list never comes
    with a string part nor a dict with an index (see [locate_part_kind]);
    those pairs are given [TypeError]. *)
Definition add_to (subobj : value) (part : key) (v : value) : result value :=
  match subobj with
  | VList l =>
      match part with
      | KIdx i =>
          if (i >? Py.len l) || (i <? 0) then Raise JsonPatchConflict
          else Ok (VList (Py.list_insert l i v))
      | KStr _ => Raise TypeError
      end
  | VDict d =>
      match part with
      | KStr k =>
          if Py.dict_contains d k then Raise JsonPatchConflict
          else Ok (VDict (Py.dict_setitem d k v))
      | KIdx _ => Raise TypeError
      end
  | VScalar _ => Raise JsonPatchConflict
  end.

(** [AddOperation.apply] *)
Definition AddOperation_apply (location : value) (operation : dict) : M unit :=
  v <- pure (field operation "value") ;;
  obj <- read ;;
  '(subobj, part) <- pure (locate obj location false) ;;
  subobj' <- pure (add_to subobj part v) ;;
  mutate location subobj'.

(** The checks of [ReplaceOperation.apply] followed by [subobj[part] = value]. *)
Definition replace_in (subobj : value) (part : key) (v : value) : result value :=
  match subobj with
  | VList l =>
      match part with
      | KIdx i =>
          if (i >? Py.len l) || (i <? 0) then Raise JsonPatchConflict
          else Py.setitem subobj part v
      | KStr _ => Raise TypeError
      end
  | VDict d =>
      match part with
      | KStr k =>
          if negb (Py.dict_contains d k) then Raise JsonPatchConflict
          else Py.setitem subobj part v
      | KIdx _ => Raise TypeError
      end
  | VScalar _ => Raise JsonPatchConflict
  end.

(** [ReplaceOperation.apply] *)
Definition ReplaceOperation_apply (location : value) (operation : dict) : M unit :=
  v <- pure (field operation "value") ;;
  obj <- read ;;
  '(subobj, part) <- pure (locate obj location true) ;;
  subobj' <- pure (replace_in subobj part v) ;;
  mutate location subobj'.

(** [MoveOperation.apply] *)
Definition MoveOperation_apply (location : value) (operation : dict) : M unit :=
  obj <- read ;;
  '(subobj, part) <- pure (locate obj location true) ;;
  v <- pure (Py.getitem subobj part) ;;
  RemoveOperation_apply location operation ;;;
  to <- pure (field operation "to") ;;
  AddOperation_apply to [("value", v)].

(** [TestOperation.apply]; [assert] as Python runs it by default. *)
Definition TestOperation_apply (location : value) (operation : dict) : M unit :=
  v <- pure (field operation "value") ;;
  obj <- read ;;
  '(subobj, part) <- pure (locate obj location true) ;;
  x <- pure (Py.getitem subobj part) ;;
  if Py.eq x v then ret tt else pure (Raise AssertionError).

(** [operation.apply(obj)], by the class of the operation. *)
Definition PatchOperation_apply (op : PatchOperation) : M unit :=
  match cls op with
  | RemoveOperation => RemoveOperation_apply (location op) (operation op)
  | AddOperation => AddOperation_apply (location op) (operation op)
  | ReplaceOperation => ReplaceOperation_apply (location op) (operation op)
  | MoveOperation => MoveOperation_apply (location op) (operation op)
  | TestOperation => TestOperation_apply (location op) (operation op)
  end.

(** ** The patch container: [JsonPatch] *)

(** [self.operations], in the order of the dict display. *)
Definition operations : list (string * op_cls) :=
  [("remove", RemoveOperation); ("add", AddOperation);
   ("replace", ReplaceOperation); ("move", MoveOperation);
   ("test", TestOperation)].

(** The loop of [_get_operation] over [self.operations.items()]. *)
Fixpoint first_action (items : list (string * op_cls)) (operation : dict)
  : result PatchOperation :=
  match items with
  | [] => Raise JsonPatchException
  | (action, op_cls) :: items' =>
      match Py.dict_get operation action with
      | Some location => Ok (mkOp op_cls location operation)
      | None => first_action items' operation
      end
  end.

(** [JsonPatch._get_operation] *)
Definition _get_operation (operation : dict) : result PatchOperation :=
  first_action operations operation.

(** [JsonPatch.apply]: the operations in order on the same document. *)
Fixpoint JsonPatch_apply (patch : list dict) : M unit :=
  match patch with
  | [] => ret tt
  | operation :: patch' =>
      op <- pure (_get_operation operation) ;;
      PatchOperation_apply op ;;;
      JsonPatch_apply patch'
  end.

(** [apply_patch(doc, patch)] *)
Definition apply_patch (doc : value) (patch : list dict) : value * result unit :=
  JsonPatch_apply patch doc.

(** ** The diff generator: [make_patch] *)

Definition loc (path : list string) : value := VScalar (SStr (Py.join "/" path)).

(** [{'remove': '/'.join(path)}] *)
Definition remove_at (path : list string) : dict :=
  [("remove", loc path)].

(** [{'add': '/'.join(path), 'value': v}] *)
Definition add_at (path : list string) (v : value) : dict :=
  [("add", loc path); ("value", v)].

(** [{'replace': '/'.join(path), 'value': other}] *)
Definition replace_at (path : list string) (other : value) : dict :=
  [("replace", loc path); ("value", other)].

Section Generators.

(** The three generators call one another; the loops are written
    against the comparison of values they recurse into. *)
Variable compare_values : list string -> value -> value -> list dict.

(** [for key in src: ...] of [compare_dict]; [v] is [src[key]]. *)
Fixpoint src_keys (path : list string) (items : dict) (dst : dict) : list dict :=
  match items with
  | [] => []
  | (key, v) :: items' =>
      match Py.dict_get dst key with
      | None => [remove_at (path ++ [key])]
      | Some w =>
          if negb (Py.eq v w) then compare_values (path ++ [key]) v w
          else []
      end ++ src_keys path items' dst
  end.

(** [for key in dst: ...] of [compare_dict]; [w] is [dst[key]]. *)
Fixpoint dst_keys (path : list string) (src : dict) (items : dict) : list dict :=
  match items with
  | [] => []
  | (key, w) :: items' =>
      (if negb (Py.dict_contains src key) then [add_at (path ++ [key]) w]
       else [])
      ++ dst_keys path src items'
  end.

(** The indices [idx, idx+1, ...] of the part of [dst] that runs past
    [src], highest first. *)
Fixpoint only_dst (path : list string) (idx : nat) (dst : list value) : list dict :=
  match dst with
  | [] => []
  | d :: dst' => only_dst path (S idx) dst' ++ [add_at (path ++ [Py.str idx]) d]
  end.

(** [for idx in reversed(range(max(lsrc, ldst))): ...] of [compare_list],
    by recursion on the lists from position [idx] on: what the loop
    yields for the higher indices comes first.  [compare_list_loop]
    below relates it to the loop over the indices. *)
Fixpoint indices (path : list string) (idx : nat) (src dst : list value)
  : list dict :=
  match src with
  | [] => only_dst path idx dst
  | s :: src' =>
      match dst with
      | [] => indices path (S idx) src' [] ++ [remove_at (path ++ [Py.str idx])]
      | d :: dst' =>
          indices path (S idx) src' dst'
          ++ compare_values (path ++ [Py.str idx]) s d
      end
  end.

End Generators.

(** [compare_values(path, value, other)] *)
Fixpoint compare_values (path : list string) (val other : value) {struct val}
  : list dict :=
  match val, other with
  | VDict src, VDict dst =>
      src_keys compare_values path src dst ++ dst_keys path src dst
  | VList src, VList dst =>
      indices compare_values path 0 src dst
  | _, _ => [replace_at path other]
  end.

(** [compare_dict(path, src, dst)] *)
Definition compare_dict (path : list string) (src dst : dict) : list dict :=
  src_keys compare_values path src dst ++ dst_keys path src dst.

(** [compare_list(path, src, dst)] *)
Definition compare_list (path : list string) (src dst : list value) : list dict :=
  indices compare_values path 0 src dst.

(** The body of the loop of [compare_list] at index [idx]. *)
Definition compare_list_at (path : list string) (src dst : list value) (idx : nat)
  : list dict :=
  let lsrc := List.length src in
  let ldst := List.length dst in
  if ((idx <? lsrc) && (idx <? ldst))%nat then
    match nth_error src idx, nth_error dst idx with
    | Some s, Some d => compare_values (path ++ [Py.str idx]) s d
    | _, _ => []
    end
  else if (idx <? ldst)%nat then
    match nth_error dst idx with
    | Some d => [add_at (path ++ [Py.str idx]) d]
    | None => []
    end
  else if (idx <? lsrc)%nat then [remove_at (path ++ [Py.str idx])]
  else [].

(** [make_patch(src, dst)]: the comparison starts in [compare_dict], so
    the two roots are objects; on other roots [for key in src] is not a
    comparison of trees and is left out. *)
Definition make_patch (src dst : dict) : list dict :=
  compare_dict [""] src dst.

(** ** Vocabulary of the statements *)

(** [location] is the string [/init.../seg]: after the split and the
    [pop(0)], [init] are the steps walked and [seg] is the last one. *)
Definition points_to (location : value) (init : list string) (seg : string) : Prop :=
  split_location location = Ok ("" :: init ++ [seg]).

(** One turn of the loop of [JsonPatch.apply]. *)
Definition run_operation (operation : dict) : M unit :=
  op <- pure (_get_operation operation) ;;
  PatchOperation_apply op.

(** [l] with [v] put at position [k] and the elements from [k] on moved
    one place to the right. *)
Definition inserted (l : list value) (k : Z) (v : value) : list value :=
  firstn (Z.to_nat k) l ++ v :: skipn (Z.to_nat k) l.

(** [item] is one of the three operations the diff writes, at [path]. *)
Definition generated (path : list string) (item : dict) : Prop :=
  item = remove_at path
  \/ (exists v, item = add_at path v)
  \/ (exists v, item = replace_at path v).

(** [key] has no [/] in it. *)
Fixpoint no_slash (key : string) : bool :=
  match key with
  | EmptyString => true
  | String c key' => negb (Ascii.eqb c "/") && no_slash key'
  end.

(** The values of [d] are all scalars. *)
Definition flat (d : dict) : Prop :=
  Forall (fun kv => exists s, snd kv = VScalar s) d.

(** The keys of [d]. *)
Definition keys (d : dict) : list string := map fst d.

(** What the operations of the first loop of [compare_dict] leave of
    [items] when the values of [dst] are scalars: a key that [dst] lacks
    is gone, a value that differs is the one of [dst]. *)
Fixpoint merged (items dst : dict) : dict :=
  match items with
  | [] => []
  | (key, v) :: items' =>
      match Py.dict_get dst key with
      | None => merged items' dst
      | Some w => (key, if Py.eq v w then v else w) :: merged items' dst
      end
  end.

(** The entries of [items] under keys that [src] lacks: what the second
    loop of [compare_dict] adds. *)
Definition added (src items : dict) : dict :=
  filter (fun kv => negb (Py.dict_contains src (fst kv))) items.

(** The elements of [l] are all scalars. *)
Definition scalars (l : list value) : Prop :=
  Forall (fun x => exists s, x = VScalar s) l.

(** ** The module's doctests *)

Definition str (s : string) : value := VScalar (SStr s).
Definition num (n : Z) : value := VScalar (SNum n).

Example apply_patch_doctest :
  apply_patch (VDict [("foo", str "bar")]) [add_at [""; "baz"] (str "qux")]
  = (VDict [("foo", str "bar"); ("baz", str "qux")], Ok tt).
Proof. reflexivity. Qed.

Example JsonPatch_doctest :
  JsonPatch_apply
    [ [("add", str "/foo"); ("value", str "bar")];
      [("add", str "/baz"); ("value", VList [num 1; num 2; num 3])];
      [("remove", str "/baz/1")];
      [("test", str "/baz"); ("value", VList [num 1; num 3])];
      [("replace", str "/baz/0"); ("value", num 42)];
      [("remove", str "/baz/1")] ]
    (VDict [])
  = (VDict [("foo", str "bar"); ("baz", VList [num 42])], Ok tt).
Proof. reflexivity. Qed.

Example make_patch_doctest :
  let src := [("foo", str "bar"); ("numbers", VList [num 1; num 3; num 4; num 8])] in
  let dst := [("baz", str "qux"); ("numbers", VList [num 1; num 4; num 7])] in
  exists doc, JsonPatch_apply (make_patch src dst) (VDict src) = (doc, Ok tt)
              /\ Py.eq doc (VDict dst) = true.
Proof. eexists. split; reflexivity. Qed.

(** ** Path resolution, step by step *)

Lemma last_item_snoc {A} (l : list A) (x : A) : Py.last_item (l ++ [x]) = Some x.
Proof. unfold Py.last_item. rewrite map_app. apply last_last. Qed.

Lemma last_item_nil_inv {A} (l : list A) : Py.last_item l = None -> l = [].
Proof.
  destruct l as [|a l] using rev_ind; [reflexivity|].
  rewrite last_item_snoc. discriminate.
Qed.

(** With a location of the shape [/init.../seg], [locate] walks [init]
    and takes the last step from the container it reached. *)
Lemma locate_points_to obj location init seg m :
  points_to location init seg ->
  locate obj location m =
  rbind (walk obj init) (fun parent =>
  rbind (_step parent seg m) (fun '(_, last_loc) => Ok (parent, last_loc))).
Proof.
  unfold points_to, locate. intros ->. cbn [rbind String.eqb negb].
  rewrite removelast_last, last_item_snoc. reflexivity.
Qed.

Lemma parent_parts_points_to location init seg :
  points_to location init seg -> parent_parts location = init.
Proof.
  unfold points_to, parent_parts. intros ->. apply removelast_last.
Qed.

(** Every location that [locate] resolves has that shape. *)
Lemma locate_Ok_inv obj location m subobj part :
  locate obj location m = Ok (subobj, part) ->
  exists init seg x,
    points_to location init seg /\ walk obj init = Ok subobj
    /\ _step subobj seg m = Ok (x, part).
Proof.
  unfold locate, points_to. destruct (split_location location) as [parts|e]; cbn [rbind];
    [|discriminate].
  destruct parts as [|first parts]; [discriminate|].
  destruct (String.eqb_spec first ""); cbn [negb]; [subst first|discriminate].
  destruct (walk obj (removelast parts)) as [parent|e] eqn:Hwalk; cbn [rbind];
    [|discriminate].
  destruct (Py.last_item parts) as [seg|] eqn:Hlast; cbn [of_option rbind];
    [|discriminate].
  destruct (_step parent seg m) as [[x k]|e] eqn:Hstep; cbn [rbind]; [|discriminate].
  intros [= <- <-]. exists (removelast parts), seg, x.
  assert (parts = removelast parts ++ [seg]) as Hparts.
  { destruct parts as [|p ps] using rev_ind; [discriminate|].
    rewrite last_item_snoc in Hlast. injection Hlast as ->.
    now rewrite removelast_last. }
  rewrite <- Hparts. auto.
Qed.

Lemma walk_app obj parts parts' :
  walk obj (parts ++ parts') = rbind (walk obj parts) (fun o => walk o parts').
Proof.
  revert obj. induction parts as [|p parts IH]; intros obj; cbn [walk app rbind];
    [reflexivity|].
  destruct (_step obj p true) as [[o k]|e]; cbn [rbind]; auto.
Qed.

(** ** Containers *)

Lemma norm_index_Some n i j :
  Py.norm_index n i = Some j -> - n <= i < n /\ (Z.of_nat j < n).
Proof.
  unfold Py.norm_index.
  destruct (Z.leb_spec 0 i), (Z.ltb_spec i n), (Z.leb_spec (- n) i);
    intros [= <-]; lia.
Qed.

Lemma norm_index_in_range n i :
  - n <= i < n -> exists j, Py.norm_index n i = Some j.
Proof.
  unfold Py.norm_index. intros H.
  destruct (Z.leb_spec 0 i), (Z.ltb_spec i n), (Z.leb_spec (- n) i);
    eauto; lia.
Qed.

Lemma list_getitem_Some {A} (l : list A) i x :
  Py.list_getitem l i = Some x -> - Py.len l <= i < Py.len l.
Proof.
  unfold Py.list_getitem.
  destruct (Py.norm_index (Py.len l) i) as [j|] eqn:Hj; [|discriminate].
  intros _. now apply norm_index_Some in Hj.
Qed.

Lemma list_getitem_in_range {A} (l : list A) i :
  - Py.len l <= i < Py.len l -> exists x, Py.list_getitem l i = Some x.
Proof.
  intros H. unfold Py.list_getitem.
  destruct (norm_index_in_range _ _ H) as [j Hj]. rewrite Hj.
  apply norm_index_Some in Hj as [_ Hj]. unfold Py.len in Hj.
  destruct (nth_error l j) as [x|] eqn:Hx; [eauto|].
  apply nth_error_None in Hx. lia.
Qed.

Lemma list_delitem_in_range {A} (l : list A) i :
  - Py.len l <= i < Py.len l -> exists l', Py.list_delitem l i = Some l'.
Proof.
  intros H. unfold Py.list_delitem.
  destruct (norm_index_in_range _ _ H) as [j ->]. eauto.
Qed.

Lemma dict_delitem_present {A} (d : list (string * A)) k v :
  Py.dict_get d k = Some v -> exists d', Py.dict_delitem d k = Some d'.
Proof.
  induction d as [|[k' v'] d IH]; cbn; [discriminate|].
  destruct (String.eqb k' k); [eauto|].
  intros H. destruct (IH H) as [d' ->]. cbn. eauto.
Qed.

Lemma dict_get_setitem_same {A} (d : list (string * A)) k v :
  Py.dict_get (Py.dict_setitem d k v) k = Some v.
Proof.
  induction d as [|[k' v'] d IH]; cbn.
  - now rewrite String.eqb_refl.
  - destruct (String.eqb k' k) eqn:E; cbn; now rewrite E.
Qed.

Lemma dict_get_setitem_other {A} (d : list (string * A)) k k' v :
  k' <> k -> Py.dict_get (Py.dict_setitem d k v) k' = Py.dict_get d k'.
Proof.
  intros Hne. induction d as [|[k0 v0] d IH]; cbn.
  - destruct (String.eqb_spec k k'); congruence.
  - destruct (String.eqb_spec k0 k); cbn.
    + subst k0. destruct (String.eqb_spec k k'); congruence.
    + now rewrite IH.
Qed.

Lemma set_at_length {A} (l : list A) j v :
  (j < List.length l)%nat ->
  List.length (firstn j l ++ v :: skipn (S j) l) = List.length l.
Proof.
  intros H. rewrite length_app. cbn [List.length].
  rewrite length_firstn, length_skipn. lia.
Qed.

Lemma set_at_nth {A} (l : list A) j v :
  (j < List.length l)%nat ->
  nth_error (firstn j l ++ v :: skipn (S j) l) j = Some v.
Proof.
  intros H. rewrite nth_error_app2; rewrite length_firstn, Nat.min_l by lia; [|lia].
  now rewrite Nat.sub_diag.
Qed.

Lemma list_getitem_setitem {A} (l l' : list A) i v :
  Py.list_setitem l i v = Some l' -> Py.list_getitem l' i = Some v.
Proof.
  unfold Py.list_setitem, Py.list_getitem.
  destruct (Py.norm_index (Py.len l) i) as [j|] eqn:Hj; [|discriminate].
  intros H. apply (f_equal (fun o => match o with Some x => x | None => l end)) in H.
  subst l'. pose proof (norm_index_Some _ _ _ Hj) as [_ Hlt].
  unfold Py.len in *. rewrite set_at_length by lia. rewrite Hj.
  apply set_at_nth. lia.
Qed.

Lemma list_setitem_in_range {A} (l : list A) i v :
  - Py.len l <= i < Py.len l -> exists l', Py.list_setitem l i v = Some l'.
Proof.
  intros H. unfold Py.list_setitem.
  destruct (norm_index_in_range _ _ H) as [j ->]. eauto.
Qed.

Lemma list_setitem_len {A} (l l' : list A) i v :
  Py.list_setitem l i v = Some l' -> Py.len l' = Py.len l.
Proof.
  unfold Py.list_setitem.
  destruct (Py.norm_index (Py.len l) i) as [j|] eqn:Hj; [|discriminate].
  intros H. apply (f_equal (fun o => match o with Some x => x | None => l end)) in H.
  subst l'. apply norm_index_Some in Hj as [_ Hlt].
  unfold Py.len in *. rewrite set_at_length by lia. reflexivity.
Qed.

(** After the container reached through [parts] has been replaced by
    [new], the same walk reaches [new]. *)
Lemma walk_store obj parts parent new :
  walk obj parts = Ok parent -> walk (store obj parts new) parts = Ok new.
Proof.
  revert obj. induction parts as [|p parts IH]; intros obj; [reflexivity|].
  cbn [walk store]. destruct obj as [s|l|d]; cbn [_step rbind]; [discriminate| |].
  - destruct (Py.int p) as [i|] eqn:Hi; [|discriminate].
    destruct (Z.geb_spec i (Py.len l)) as [Hge|Hlt]; [discriminate|].
    destruct (Py.list_getitem l i) as [child|] eqn:Hchild; cbn [of_option rbind];
      [|discriminate].
    intros Hwalk.
    destruct (list_setitem_in_range l i (store child parts new)
                (list_getitem_Some _ _ _ Hchild)) as [l' Hl'].
    rewrite Hl'. cbn [walk _step]. rewrite Hi, (list_setitem_len _ _ _ _ Hl').
    destruct (Z.geb_spec i (Py.len l)); [lia|].
    rewrite (list_getitem_setitem _ _ _ _ Hl'). cbn [of_option rbind]. auto.
  - destruct (Py.dict_get d p) as [child|] eqn:Hchild; [|discriminate].
    intros Hwalk. cbn [walk _step]. rewrite dict_get_setitem_same.
    cbn [rbind]. auto.
Qed.

(** [inserted l k v] is [l.insert(k, v)] for the positions Add allows. *)
Lemma list_insert_inserted l k v :
  0 <= k <= Py.len l -> Py.list_insert l k v = inserted l k v.
Proof.
  intros H. unfold Py.list_insert, inserted.
  destruct (Z.ltb_spec k 0); [lia|]. now rewrite Z.min_l by lia.
Qed.

Lemma inserted_length l k v :
  List.length (inserted l k v) = S (List.length l).
Proof.
  unfold inserted. rewrite length_app. cbn [List.length].
  rewrite length_firstn, length_skipn. lia.
Qed.

Lemma inserted_at l k v :
  0 <= k <= Py.len l -> nth_error (inserted l k v) (Z.to_nat k) = Some v.
Proof.
  intros H. unfold inserted, Py.len in *.
  rewrite nth_error_app2; rewrite length_firstn, Nat.min_l by lia; [|lia].
  now rewrite Nat.sub_diag.
Qed.

Lemma inserted_before l k v j :
  0 <= k <= Py.len l -> (j < Z.to_nat k)%nat ->
  nth_error (inserted l k v) j = nth_error l j.
Proof.
  intros H Hj. unfold inserted, Py.len in *.
  rewrite nth_error_app1 by (rewrite length_firstn; lia).
  rewrite nth_error_firstn. now destruct (Nat.ltb_spec j (Z.to_nat k)); [|lia].
Qed.

Lemma inserted_after l k v j :
  0 <= k <= Py.len l -> (Z.to_nat k <= j)%nat ->
  nth_error (inserted l k v) (S j) = nth_error l j.
Proof.
  intros H Hj. unfold inserted, Py.len in *.
  rewrite nth_error_app2; rewrite length_firstn, Nat.min_l by lia; [|lia].
  replace (S j - Z.to_nat k)%nat with (S (j - Z.to_nat k)) by lia.
  cbn [nth_error]. rewrite nth_error_skipn. f_equal. lia.
Qed.

Lemma inserted_append l v : inserted l (Py.len l) v = l ++ [v].
Proof.
  unfold inserted, Py.len. rewrite Nat2Z.id, firstn_all, skipn_all. reflexivity.
Qed.

(** ** The operations as equations on the document *)

Ltac run_body :=
  unfold bind, pure, read, mutate, ret; cbn beta iota.

Lemma RemoveOperation_apply_eq location operation obj :
  RemoveOperation_apply location operation obj =
  match locate obj location true with
  | Raise e => (obj, Raise e)
  | Ok (subobj, part) =>
      match Py.delitem subobj part with
      | Raise e => (obj, Raise e)
      | Ok subobj' => (store obj (parent_parts location) subobj', Ok tt)
      end
  end.
Proof.
  unfold RemoveOperation_apply. run_body.
  destruct (locate obj location true) as [[subobj part]|e]; [|reflexivity].
  destruct (Py.delitem subobj part); reflexivity.
Qed.

Lemma AddOperation_apply_eq location operation obj v :
  field operation "value" = Ok v ->
  AddOperation_apply location operation obj =
  match locate obj location false with
  | Raise e => (obj, Raise e)
  | Ok (subobj, part) =>
      match add_to subobj part v with
      | Raise e => (obj, Raise e)
      | Ok subobj' => (store obj (parent_parts location) subobj', Ok tt)
      end
  end.
Proof.
  intros Hv. unfold AddOperation_apply. run_body. rewrite Hv.
  destruct (locate obj location false) as [[subobj part]|e]; [|reflexivity].
  destruct (add_to subobj part v); reflexivity.
Qed.

Lemma ReplaceOperation_apply_eq location operation obj v :
  field operation "value" = Ok v ->
  ReplaceOperation_apply location operation obj =
  match locate obj location true with
  | Raise e => (obj, Raise e)
  | Ok (subobj, part) =>
      match replace_in subobj part v with
      | Raise e => (obj, Raise e)
      | Ok subobj' => (store obj (parent_parts location) subobj', Ok tt)
      end
  end.
Proof.
  intros Hv. unfold ReplaceOperation_apply. run_body. rewrite Hv.
  destruct (locate obj location true) as [[subobj part]|e]; [|reflexivity].
  destruct (replace_in subobj part v); reflexivity.
Qed.

Lemma TestOperation_apply_eq location operation obj v :
  field operation "value" = Ok v ->
  TestOperation_apply location operation obj =
  match locate obj location true with
  | Raise e => (obj, Raise e)
  | Ok (subobj, part) =>
      match Py.getitem subobj part with
      | Raise e => (obj, Raise e)
      | Ok x => (obj, if Py.eq x v then Ok tt else Raise AssertionError)
      end
  end.
Proof.
  intros Hv. unfold TestOperation_apply. run_body. rewrite Hv.
  destruct (locate obj location true) as [[subobj part]|e]; [|reflexivity].
  destruct (Py.getitem subobj part) as [x|e]; [|reflexivity].
  destruct (Py.eq x v); reflexivity.
Qed.

(** A missing field of an operation is a [KeyError]. *)
Lemma field_Raise operation k e : field operation k = Raise e -> e = KeyError.
Proof.
  unfold field, of_option. destruct (Py.dict_get operation k); congruence.
Qed.

(** ** Add *)

(** X17.  Let an Add with a value address [/init.../seg]
    and let the walk along [init] reach [parent].  If [parent] is a list
    and [seg] reads as the integer [k], the operation succeeds exactly
    when [0 <= k <= len], and then [parent] holds the value at position
    [k] with the later elements moved right; it fails otherwise, with
    [JsonPatchConflict] when [k > len] or [-len <= k < 0].  If [parent] is
    a dict, the operation raises [JsonPatchConflict] when the key is
    present and stores the value under it otherwise.  If [parent] is a
    scalar, the resolution raises [ValueError]. *)
Theorem AddOperation_apply_cases obj location operation v init seg parent :
  field operation "value" = Ok v ->
  points_to location init seg ->
  walk obj init = Ok parent ->
  match parent with
  | VList l =>
      forall k, Py.int seg = Some k ->
        if (0 <=? k) && (k <=? Py.len l) then
          AddOperation_apply location operation obj
          = (store obj init (VList (inserted l k v)), Ok tt)
        else
          (exists e, AddOperation_apply location operation obj = (obj, Raise e))
          /\ (k > Py.len l \/ - Py.len l <= k ->
              AddOperation_apply location operation obj
              = (obj, Raise JsonPatchConflict))
  | VDict d =>
      if Py.dict_contains d seg then
        AddOperation_apply location operation obj = (obj, Raise JsonPatchConflict)
      else
        AddOperation_apply location operation obj
        = (store obj init (VDict (Py.dict_setitem d seg v)), Ok tt)
  | VScalar _ =>
      AddOperation_apply location operation obj = (obj, Raise ValueError)
  end.
Proof.
  intros Hv Hloc Hwalk.
  rewrite (AddOperation_apply_eq _ _ _ _ Hv), (locate_points_to _ _ _ _ _ Hloc),
    (parent_parts_points_to _ _ _ Hloc), Hwalk.
  cbn [rbind]. destruct parent as [s|l|d]; cbn [_step rbind].
  - reflexivity.
  - intros k ->.
    destruct (Z.leb_spec 0 k) as [H0|H0], (Z.leb_spec k (Py.len l)) as [H1|H1];
      cbn [andb].
    + destruct (Z.geb_spec k (Py.len l)) as [Hge|Hlt].
      * cbn [rbind add_to]. destruct (Z.gtb_spec k (Py.len l)); [lia|].
        destruct (Z.ltb_spec k 0); [lia|]. cbn [orb].
        now rewrite list_insert_inserted by lia.
      * destruct (list_getitem_in_range l k ltac:(lia)) as [x ->].
        cbn [of_option rbind add_to]. destruct (Z.gtb_spec k (Py.len l)); [lia|].
        destruct (Z.ltb_spec k 0); [lia|]. cbn [orb].
        now rewrite list_insert_inserted by lia.
    + destruct (Z.geb_spec k (Py.len l)) as [Hge|Hlt]; [|lia].
      cbn [rbind add_to]. destruct (Z.gtb_spec k (Py.len l)); [|lia].
      cbn [orb]. eauto.
    + destruct (Z.geb_spec k (Py.len l)) as [Hge|Hlt]; [unfold Py.len in *; lia|].
      destruct (Py.list_getitem l k) as [x|] eqn:Hx; cbn [of_option rbind add_to].
      * destruct (Z.gtb_spec k (Py.len l)); [lia|].
        destruct (Z.ltb_spec k 0); [|lia]. cbn [orb]. eauto.
      * split; [eauto|]. intros [Hgt|Hlo]; [lia|].
        destruct (list_getitem_in_range l k ltac:(lia)) as [x Hx']. congruence.
    + unfold Py.len in *; lia.
  - unfold Py.dict_contains.
    destruct (Py.dict_get d seg) as [x|] eqn:Hget; cbn [rbind add_to];
      unfold Py.dict_contains; rewrite Hget; reflexivity.
Qed.

(** On [[1, 2, 3]], [{add: "/1", value: 9}] gives [[1, 9, 2, 3]]. *)
Lemma AddOperation_apply_cases_witness :
  AddOperation_apply (str "/1") [("value", num 9)] (VList [num 1; num 2; num 3])
  = (VList [num 1; num 9; num 2; num 3], Ok tt).
Proof.
  exact (AddOperation_apply_cases (VList [num 1; num 2; num 3]) (str "/1")
           [("value", num 9)] (num 9) [] "1" (VList [num 1; num 2; num 3])
           eq_refl eq_refl eq_refl 1 eq_refl).
Defined.

(** ** What a resolved location holds *)

(** The container and the last step that [_step] hands back agree in kind. *)
Lemma _step_part_kind subobj seg m x part :
  _step subobj seg m = Ok (x, part) ->
  match subobj, part with
  | VDict _, KStr k => k = seg
  | VList _, KIdx i => Py.int seg = Some i
  | _, _ => False
  end.
Proof.
  destruct subobj as [s|l|d]; cbn [_step]; [discriminate| |].
  - destruct (Py.int seg) as [i|]; [|discriminate].
    destruct (i >=? Py.len l); [destruct m; [discriminate|]; now intros [= _ <-]|].
    destruct (Py.list_getitem l i); cbn; [|discriminate]. now intros [= _ <-].
  - destruct (Py.dict_get d seg); [now intros [= _ <-]|].
    destruct m; [discriminate|]. now intros [= _ <-].
Qed.

(** A step that must exist hands back the item [subobj[part]], which can
    also be deleted. *)
Lemma _step_must_exist subobj seg x part :
  _step subobj seg true = Ok (x, part) ->
  Py.getitem subobj part = Ok x /\ exists subobj', Py.delitem subobj part = Ok subobj'.
Proof.
  destruct subobj as [s|l|d]; cbn [_step]; [discriminate| |].
  - destruct (Py.int seg) as [i|]; [|discriminate].
    destruct (i >=? Py.len l); [discriminate|].
    destruct (Py.list_getitem l i) as [y|] eqn:Hy; cbn; [|discriminate].
    intros [= <- <-]. cbn. rewrite Hy. split; [reflexivity|].
    destruct (list_delitem_in_range l i (list_getitem_Some _ _ _ Hy)) as [l' ->].
    cbn. eauto.
  - destruct (Py.dict_get d seg) as [y|] eqn:Hy; [|discriminate].
    intros [= <- <-]. cbn. rewrite Hy. split; [reflexivity|].
    destruct (dict_delitem_present _ _ _ Hy) as [d' ->]. cbn. eauto.
Qed.

Lemma locate_part_kind obj location m subobj part :
  locate obj location m = Ok (subobj, part) ->
  match subobj, part with
  | VDict _, KStr _ | VList _, KIdx _ => True
  | _, _ => False
  end.
Proof.
  intros H. apply locate_Ok_inv in H as (init & seg & x & _ & _ & Hstep).
  apply _step_part_kind in Hstep. destruct subobj, part; auto.
Qed.

Lemma locate_must_exist obj location subobj part :
  locate obj location true = Ok (subobj, part) ->
  (exists x, Py.getitem subobj part = Ok x)
  /\ exists subobj', Py.delitem subobj part = Ok subobj'.
Proof.
  intros H. apply locate_Ok_inv in H as (init & seg & x & _ & _ & Hstep).
  apply _step_must_exist in Hstep as [Hget Hdel]. eauto.
Qed.

(** ** The guards of Add that are not reached *)

(** C3: [AddOperation.apply] has a branch that raises [JsonPatchConflict]
    for a container that is neither list nor dict, and a guard that
    raises it for a negative index.  The branch is never entered, since
    [locate] returns no scalar container: an Add under a scalar raises
    the [ValueError] of [_step] ([{add: "/a/b", value: 2}] on [{"a": 1}]).
    The guard is not reached for an index below [-len], where the
    indexing in [_step] raises [IndexError] ([{add: "/-1", value: 2}] on
    [[]]).  In both cases the document is left alone. *)
Theorem AddOperation_apply_guards_unreached :
  (forall s part v, add_to (VScalar s) part v = Raise JsonPatchConflict)
  /\ (forall l p v, add_to (VList l) (KIdx (Z.neg p)) v = Raise JsonPatchConflict)
  /\ (forall obj path m s part, locate obj path m <> Ok (VScalar s, part))
  /\ apply_patch (VDict [("a", num 1)]) [add_at [""; "a"; "b"] (num 2)]
     = (VDict [("a", num 1)], Raise ValueError)
  /\ apply_patch (VList []) [add_at [""; "-1"] (num 2)]
     = (VList [], Raise IndexError).
Proof.
  repeat split.
  - intros l p v. cbn [add_to].
    change (Z.neg p <? 0) with true. now rewrite orb_true_r.
  - intros obj path m s part H. now apply locate_part_kind in H.
Qed.

(** ** Move *)

(** C4.  For a Move from [location] to [to]: when the source does not
    resolve under [last_must_exist=True], the Move raises what the
    resolution raises and the document is untouched; when it resolves to
    [(subobj, part)], the Move is the Remove at [location], which
    succeeds, followed by the Add at [to] of the value [subobj[part]] read
    before the removal, run on the document the removal leaves. *)
Theorem MoveOperation_apply_remove_then_add obj location operation to :
  field operation "to" = Ok to ->
  match locate obj location true with
  | Raise e => MoveOperation_apply location operation obj = (obj, Raise e)
  | Ok (subobj, part) =>
      exists v obj',
        Py.getitem subobj part = Ok v
        /\ RemoveOperation_apply location operation obj = (obj', Ok tt)
        /\ MoveOperation_apply location operation obj
           = AddOperation_apply to [("value", v)] obj'
  end.
Proof.
  intros Hto. unfold MoveOperation_apply.
  destruct (locate obj location true) as [[subobj part]|e] eqn:Hloc.
  - destruct (locate_must_exist _ _ _ _ Hloc) as [[v Hv] [subobj' Hdel]].
    exists v, (store obj (parent_parts location) subobj').
    assert (RemoveOperation_apply location operation obj
            = (store obj (parent_parts location) subobj', Ok tt)) as Hrm
      by (now rewrite RemoveOperation_apply_eq, Hloc, Hdel).
    repeat split; auto.
    unfold bind at 1 2 3 4 5; unfold pure at 1 2 3; unfold read.
    cbn beta iota. rewrite Hloc, Hv, Hrm, Hto. reflexivity.
  - unfold bind, pure, read. cbn beta iota. rewrite Hloc. reflexivity.
Qed.

(** [{move: "/baz", to: "/qux"}] on [{"baz": 1, "other": 2}]. *)
Lemma MoveOperation_apply_remove_then_add_witness :
  exists v obj',
    Py.getitem (VDict [("baz", num 1); ("other", num 2)]) (KStr "baz") = Ok v
    /\ RemoveOperation_apply (str "/baz") [("move", str "/baz"); ("to", str "/qux")]
         (VDict [("baz", num 1); ("other", num 2)]) = (obj', Ok tt)
    /\ MoveOperation_apply (str "/baz") [("move", str "/baz"); ("to", str "/qux")]
         (VDict [("baz", num 1); ("other", num 2)])
       = AddOperation_apply (str "/qux") [("value", v)] obj'.
Proof.
  exact (MoveOperation_apply_remove_then_add
           (VDict [("baz", num 1); ("other", num 2)]) (str "/baz")
           [("move", str "/baz"); ("to", str "/qux")] (str "/qux") eq_refl).
Defined.

(** ** Test *)

Lemma JsonPatch_apply_cons item patch obj :
  JsonPatch_apply (item :: patch) obj =
  match run_operation item obj with
  | (obj', Ok _) => JsonPatch_apply patch obj'
  | (obj', Raise e) => (obj', Raise e)
  end.
Proof.
  cbn [JsonPatch_apply]. unfold run_operation, bind, pure.
  destruct (_get_operation item) as [op|e]; [|reflexivity].
  destruct (PatchOperation_apply op obj) as [obj' [[]|e]]; reflexivity.
Qed.

(** C5.  Let a Test operation with expected value [v] resolve its
    location to [(subobj, part)].  Then [subobj[part]] exists; if it
    equals [v] (Python's [==]) the operation returns and the document is
    the one it was given, so the patch goes on with the next operation;
    if not, the operation raises [AssertionError], and so does the whole
    [JsonPatch.apply], whatever operations follow. *)
Theorem TestOperation_apply_outcome obj path item v subobj part patch :
  _get_operation item = Ok (mkOp TestOperation path item) ->
  field item "value" = Ok v ->
  locate obj path true = Ok (subobj, part) ->
  exists x,
    Py.getitem subobj part = Ok x
    /\ if Py.eq x v then
         TestOperation_apply path item obj = (obj, Ok tt)
         /\ JsonPatch_apply (item :: patch) obj = JsonPatch_apply patch obj
       else
         TestOperation_apply path item obj = (obj, Raise AssertionError)
         /\ JsonPatch_apply (item :: patch) obj = (obj, Raise AssertionError).
Proof.
  intros Hop Hv Hloc.
  destruct (locate_must_exist _ _ _ _ Hloc) as [[x Hx] _].
  exists x. split; [assumption|].
  pose proof (TestOperation_apply_eq path item obj v Hv) as Heq.
  rewrite Hloc, Hx in Heq.
  rewrite JsonPatch_apply_cons. unfold run_operation, bind, pure.
  rewrite Hop. cbn [PatchOperation_apply cls location operation].
  rewrite Heq. destruct (Py.eq x v); split; reflexivity.
Qed.

(** [{test: "/foo", value: "qux"}] on [{"foo": "bar"}] stops the patch. *)
Lemma TestOperation_apply_outcome_witness :
  exists x,
    Py.getitem (VDict [("foo", str "bar")]) (KStr "foo") = Ok x
    /\ if Py.eq x (str "qux") then
         TestOperation_apply (str "/foo") [("test", str "/foo"); ("value", str "qux")]
           (VDict [("foo", str "bar")]) = (VDict [("foo", str "bar")], Ok tt)
         /\ JsonPatch_apply
              [[("test", str "/foo"); ("value", str "qux")]; remove_at [""; "foo"]]
              (VDict [("foo", str "bar")])
            = JsonPatch_apply [remove_at [""; "foo"]] (VDict [("foo", str "bar")])
       else
         TestOperation_apply (str "/foo") [("test", str "/foo"); ("value", str "qux")]
           (VDict [("foo", str "bar")])
         = (VDict [("foo", str "bar")], Raise AssertionError)
         /\ JsonPatch_apply
              [[("test", str "/foo"); ("value", str "qux")]; remove_at [""; "foo"]]
              (VDict [("foo", str "bar")])
            = (VDict [("foo", str "bar")], Raise AssertionError).
Proof.
  exact (TestOperation_apply_outcome (VDict [("foo", str "bar")]) (str "/foo")
           [("test", str "/foo"); ("value", str "qux")] (str "qux")
           (VDict [("foo", str "bar")]) (KStr "foo") [remove_at [""; "foo"]]
           eq_refl eq_refl eq_refl).
Defined.

(** ** Failure inside a patch *)

Lemma RemoveOperation_apply_Raise location item obj obj' e :
  RemoveOperation_apply location item obj = (obj', Raise e) -> obj' = obj.
Proof.
  rewrite RemoveOperation_apply_eq.
  destruct (locate obj location true) as [[subobj part]|e0]; [|congruence].
  destruct (Py.delitem subobj part); congruence.
Qed.

Lemma AddOperation_apply_Raise location item obj obj' e :
  AddOperation_apply location item obj = (obj', Raise e) -> obj' = obj.
Proof.
  destruct (field item "value") as [v|e0] eqn:Hv.
  - rewrite (AddOperation_apply_eq _ _ _ _ Hv).
    destruct (locate obj location false) as [[subobj part]|e1]; [|congruence].
    destruct (add_to subobj part v); congruence.
  - unfold AddOperation_apply, bind, pure. rewrite Hv. congruence.
Qed.

Lemma ReplaceOperation_apply_Raise location item obj obj' e :
  ReplaceOperation_apply location item obj = (obj', Raise e) -> obj' = obj.
Proof.
  destruct (field item "value") as [v|e0] eqn:Hv.
  - rewrite (ReplaceOperation_apply_eq _ _ _ _ Hv).
    destruct (locate obj location true) as [[subobj part]|e1]; [|congruence].
    destruct (replace_in subobj part v); congruence.
  - unfold ReplaceOperation_apply, bind, pure. rewrite Hv. congruence.
Qed.

(** A Test never changes the document. *)
Lemma TestOperation_apply_fst location item obj :
  fst (TestOperation_apply location item obj) = obj.
Proof.
  destruct (field item "value") as [v|e0] eqn:Hv.
  - rewrite (TestOperation_apply_eq _ _ _ _ Hv).
    destruct (locate obj location true) as [[subobj part]|e1]; [|reflexivity].
    destruct (Py.getitem subobj part); reflexivity.
  - unfold TestOperation_apply, bind, pure. rewrite Hv. reflexivity.
Qed.

(** A Move that raises: when its source does not resolve the document is
    left alone; when it resolves, the Remove has been done, and the
    document is the one the Remove leaves. *)
Lemma MoveOperation_apply_Raise path item obj obj' e :
  MoveOperation_apply path item obj = (obj', Raise e) ->
  match locate obj path true with
  | Raise _ => obj' = obj
  | Ok _ => RemoveOperation_apply path item obj = (obj', Ok tt)
  end.
Proof.
  unfold MoveOperation_apply.
  unfold bind at 1 2 3 4 5; unfold pure at 1 2 3; unfold read. cbn beta iota.
  destruct (locate obj path true) as [[subobj part]|e0] eqn:Hloc; [|congruence].
  destruct (locate_must_exist _ _ _ _ Hloc) as [[v Hv] [subobj' Hdel]].
  rewrite Hv.
  assert (RemoveOperation_apply path item obj
          = (store obj (parent_parts path) subobj', Ok tt)) as Hrm
    by (now rewrite RemoveOperation_apply_eq, Hloc, Hdel).
  rewrite Hrm. destruct (field item "to") as [to|e2].
  - intros H. apply AddOperation_apply_Raise in H. now subst obj'.
  - now intros [= <- _].
Qed.

Lemma JsonPatch_apply_app pre post doc :
  JsonPatch_apply (pre ++ post) doc =
  match JsonPatch_apply pre doc with
  | (doc', Ok _) => JsonPatch_apply post doc'
  | (doc', Raise e) => (doc', Raise e)
  end.
Proof.
  revert doc. induction pre as [|item pre IH]; intros doc; [reflexivity|].
  cbn [app]. rewrite !JsonPatch_apply_cons.
  destruct (run_operation item doc) as [doc1 [[]|e]]; [apply IH|reflexivity].
Qed.

(** C6, as the code has it.  If the operations [pre] succeed and leave
    [doc_i], and the next operation raises [e] on [doc_i], then
    [JsonPatch.apply] raises [e] whatever operations follow.  The
    document is then [doc_i] -- except for a Move whose source resolves:
    such a Move can only fail after it has removed its source (no [to],
    or the Add at [to] raises), and the document is the one that the
    Remove at the source leaves. *)
Theorem JsonPatch_apply_first_failure pre item post doc doc_i doc' e :
  JsonPatch_apply pre doc = (doc_i, Ok tt) ->
  run_operation item doc_i = (doc', Raise e) ->
  JsonPatch_apply (pre ++ item :: post) doc = (doc', Raise e)
  /\ match _get_operation item with
     | Raise _ => doc' = doc_i
     | Ok op =>
         match cls op, locate doc_i (location op) true with
         | MoveOperation, Ok _ =>
             RemoveOperation_apply (location op) (operation op) doc_i = (doc', Ok tt)
         | _, _ => doc' = doc_i
         end
     end.
Proof.
  intros Hpre Hrun. split.
  - now rewrite JsonPatch_apply_app, Hpre, JsonPatch_apply_cons, Hrun.
  - unfold run_operation, bind, pure in Hrun.
    destruct (_get_operation item) as [[c l o]|e0]; [|congruence].
    unfold PatchOperation_apply in Hrun. cbn [cls location operation] in *.
    destruct (PatchOperation_apply (mkOp c l o) doc_i) as [d r] eqn:Hop.
    unfold PatchOperation_apply in Hop. cbn [cls location operation] in Hop.
    rewrite Hop in Hrun. destruct r as [[]|e1]; [discriminate|].
    injection Hrun as -> ->. destruct c.
    + eapply RemoveOperation_apply_Raise; eassumption.
    + eapply AddOperation_apply_Raise; eassumption.
    + eapply ReplaceOperation_apply_Raise; eassumption.
    + apply MoveOperation_apply_Raise in Hop.
      destruct (locate doc_i l true) as [[subobj part]|e0]; exact Hop.
    + rewrite <- (TestOperation_apply_fst l o doc_i), Hop. reflexivity.
Qed.

(** A Move onto a key that exists fails after it has removed its source. *)
Lemma JsonPatch_apply_first_failure_witness :
  JsonPatch_apply ([] ++ [("move", str "/a"); ("to", str "/b")] :: [remove_at [""; "b"]])
    (VDict [("a", num 1); ("b", num 2)])
  = (VDict [("b", num 2)], Raise JsonPatchConflict)
  /\ RemoveOperation_apply (str "/a") [("move", str "/a"); ("to", str "/b")]
       (VDict [("a", num 1); ("b", num 2)])
     = (VDict [("b", num 2)], Ok tt).
Proof.
  exact (JsonPatch_apply_first_failure [] [("move", str "/a"); ("to", str "/b")]
           [remove_at [""; "b"]] (VDict [("a", num 1); ("b", num 2)])
           (VDict [("a", num 1); ("b", num 2)]) (VDict [("b", num 2)])
           JsonPatchConflict eq_refl eq_refl).
Defined.

(** A Move without [to] finds that out after the removal. *)
Example MoveOperation_without_to :
  apply_patch (VDict [("a", num 1)]) [[("move", str "/a")]]
  = (VDict [], Raise KeyError).
Proof. reflexivity. Qed.

(** C6 as worded fails: the first operation of this patch raises, and the
    document is not the one the (empty) prefix left. *)
Lemma JsonPatch_apply_failure_not_prefix_state :
  let doc := VDict [("a", num 1); ("b", num 2)] in
  let patch := [[("move", str "/a"); ("to", str "/b")]] in
  JsonPatch_apply [] doc = (doc, Ok tt)
  /\ JsonPatch_apply patch doc = (VDict [("b", num 2)], Raise JsonPatchConflict)
  /\ fst (JsonPatch_apply patch doc) <> doc.
Proof. repeat split; try reflexivity. discriminate. Qed.

(** ** Dispatch *)

Lemma first_action_unique items item action c path :
  NoDup (map fst items) ->
  In (action, c) items ->
  Py.dict_get item action = Some path ->
  (forall action' c', In (action', c') items -> action' <> action ->
                      Py.dict_get item action' = None) ->
  first_action items item = Ok (mkOp c path item).
Proof.
  induction items as [|[a c0] items IH]; cbn [first_action map fst];
    intros Hnd Hin Hget Hothers; [contradiction|].
  inversion Hnd as [|? ? Hnotin Hnd']; subst.
  destruct Hin as [[= -> ->]|Hin].
  - now rewrite Hget.
  - assert (a <> action) as Hne.
    { intros ->. apply Hnotin. now apply (in_map fst) in Hin. }
    rewrite (Hothers a c0 (or_introl eq_refl) Hne).
    apply IH; auto. intros a' c' Hin'. apply (Hothers a' c'). now right.
Qed.

Lemma first_action_none items item :
  (forall action c, In (action, c) items -> Py.dict_get item action = None) ->
  first_action items item = Raise JsonPatchException.
Proof.
  induction items as [|[a c0] items IH]; cbn [first_action]; intros H;
    [reflexivity|].
  rewrite (H a c0 (or_introl eq_refl)). apply IH.
  intros a' c' Hin. apply (H a' c'). now right.
Qed.

Lemma operations_NoDup : NoDup (map fst operations).
Proof.
  cbn. repeat constructor; cbn; intuition discriminate.
Qed.

(** C7.  When exactly one of the action keys [remove], [add], [replace],
    [move], [test] is present in an operation object, [_get_operation]
    builds the operation of the class of that key, located at the key's
    value.  When none is present it raises [JsonPatchException], and
    [JsonPatch.apply] stops with that exception and the document as it
    was before this operation. *)
Theorem _get_operation_dispatch item :
  (forall action c path,
      In (action, c) operations ->
      Py.dict_get item action = Some path ->
      (forall action' c', In (action', c') operations -> action' <> action ->
                          Py.dict_get item action' = None) ->
      _get_operation item = Ok (mkOp c path item))
  /\ ((forall action c, In (action, c) operations -> Py.dict_get item action = None) ->
      _get_operation item = Raise JsonPatchException
      /\ forall patch obj,
          JsonPatch_apply (item :: patch) obj = (obj, Raise JsonPatchException)).
Proof.
  split.
  - intros action c path. apply first_action_unique, operations_NoDup.
  - intros Hnone. pose proof (first_action_none operations item Hnone) as Hraise.
    split; [exact Hraise|]. intros patch obj.
    rewrite JsonPatch_apply_cons. unfold run_operation, bind, pure, _get_operation.
    now rewrite Hraise.
Qed.

(** With several action keys present no error is raised: the first class
    of [operations] is taken. *)
Example _get_operation_several_keys :
  _get_operation [("add", str "/a"); ("remove", str "/b"); ("value", num 0)]
  = Ok (mkOp RemoveOperation (str "/b")
          [("add", str "/a"); ("remove", str "/b"); ("value", num 0)]).
Proof. reflexivity. Qed.

(** [{add: "/baz", value: "qux"}] is an Add at [/baz]; [{foo: "/baz"}] is
    no operation. *)
Lemma _get_operation_dispatch_witness :
  _get_operation [("add", str "/baz"); ("value", str "qux")]
  = Ok (mkOp AddOperation (str "/baz") [("add", str "/baz"); ("value", str "qux")])
  /\ _get_operation [("foo", str "/baz")] = Raise JsonPatchException.
Proof.
  split.
  - apply (proj1 (_get_operation_dispatch [("add", str "/baz"); ("value", str "qux")])
             "add" AddOperation (str "/baz")).
    + cbn. auto.
    + reflexivity.
    + intros action' c' Hin Hne. cbn in Hin.
      repeat (destruct Hin as [[= <- <-]|Hin]; [reflexivity || contradiction|]).
      contradiction.
  - apply (proj2 (_get_operation_dispatch [("foo", str "/baz")])).
    intros action c Hin. cbn in Hin.
    repeat (destruct Hin as [[= <- <-]|Hin]; [reflexivity|]). contradiction.
Defined.

(** ** Error kinds of the resolution *)

Lemma _step_ValueError container seg m :
  match container with
  | VScalar _ => True
  | VList _ => Py.int seg = None
  | VDict _ => False
  end ->
  _step container seg m = Raise ValueError.
Proof.
  destruct container as [s|l|d]; cbn [_step]; [reflexivity| |contradiction].
  now intros ->.
Qed.

Lemma _step_Conflict container seg :
  match container with
  | VScalar _ => False
  | VList l => exists k, Py.int seg = Some k /\ k >= Py.len l
  | VDict d => Py.dict_get d seg = None
  end ->
  _step container seg true = Raise JsonPatchConflict.
Proof.
  destruct container as [s|l|d]; cbn [_step]; [contradiction| |now intros ->].
  intros (k & -> & Hk). destruct (Z.geb_spec k (Py.len l)); [reflexivity|lia].
Qed.

(** A step that fails in the middle or at the end of a location fails the
    resolution, with the same exception. *)
Lemma locate_step_Raise obj location pre seg post container m e :
  split_location location = Ok ("" :: pre ++ seg :: post) ->
  walk obj pre = Ok container ->
  _step container seg true = Raise e ->
  (post = [] -> _step container seg m = Raise e) ->
  locate obj location m = Raise e.
Proof.
  intros Hsplit Hwalk Hstep Hlast. unfold locate. rewrite Hsplit.
  cbn [rbind String.eqb negb].
  destruct post as [|p post _] using rev_ind.
  - rewrite removelast_last, last_item_snoc, Hwalk. cbn [rbind of_option].
    now rewrite Hlast.
  - replace (pre ++ seg :: post ++ [p]) with ((pre ++ seg :: post) ++ [p])
      by now rewrite <- app_assoc.
    rewrite removelast_last, walk_app, Hwalk. cbn [rbind walk].
    now rewrite Hstep.
Qed.

(** An operation whose location does not resolve, whether its last step
    must exist or not, raises what the resolution raises. *)
Lemma PatchOperation_apply_locate_Raise obj c path item v e :
  field item "value" = Ok v ->
  (forall m, locate obj path m = Raise e) ->
  PatchOperation_apply (mkOp c path item) obj = (obj, Raise e).
Proof.
  intros Hv Hloc. unfold PatchOperation_apply. cbn [cls location operation].
  destruct c.
  - now rewrite RemoveOperation_apply_eq, Hloc.
  - now rewrite (AddOperation_apply_eq _ _ _ _ Hv), Hloc.
  - now rewrite (ReplaceOperation_apply_eq _ _ _ _ Hv), Hloc.
  - unfold MoveOperation_apply, bind, pure, read. now rewrite Hloc.
  - now rewrite (TestOperation_apply_eq _ _ _ _ Hv), Hloc.
Qed.

(** The same for operation objects as they come: a Remove and a Move
    read no value. *)
Lemma PatchOperation_apply_locate_Raise_any obj c path item e :
  c = RemoveOperation \/ c = MoveOperation
  \/ (exists v, field item "value" = Ok v) ->
  (forall m, locate obj path m = Raise e) ->
  PatchOperation_apply (mkOp c path item) obj = (obj, Raise e).
Proof.
  intros [->|[->|[v Hv]]] Hloc.
  - unfold PatchOperation_apply. cbn [cls location operation].
    now rewrite RemoveOperation_apply_eq, Hloc.
  - unfold PatchOperation_apply. cbn [cls location operation].
    unfold MoveOperation_apply, bind, pure, read. now rewrite Hloc.
  - now apply (PatchOperation_apply_locate_Raise _ _ _ _ v).
Qed.

(** C8, as the code has it.  Let the location be [/pre.../seg/post...] and
    let the walk along [pre] reach [container].  If [container] is a list
    and [seg] is not an integer, every operation at that location -- a
    Remove, a Move, or an Add, Replace or Test that has its value --
    raises [ValueError] and leaves the document alone.  If [container] is
    a scalar, so do a Remove, a Move and a Test, and an Add and a Replace
    when steps follow [seg].  [JsonPatchConflict] is what a step that must
    exist raises for a key that a dict lacks and for an index at or past
    the end of a list. *)
Theorem resolution_error_kinds obj path pre seg post container :
  split_location path = Ok ("" :: pre ++ seg :: post) ->
  walk obj pre = Ok container ->
  match container with
  | VScalar _ =>
      forall c item,
        c = RemoveOperation \/ c = MoveOperation
        \/ ((exists v, field item "value" = Ok v)
            /\ (c = TestOperation \/ post <> [])) ->
        PatchOperation_apply (mkOp c path item) obj = (obj, Raise ValueError)
  | VList l =>
      (Py.int seg = None ->
       forall c item,
         c = RemoveOperation \/ c = MoveOperation
         \/ (exists v, field item "value" = Ok v) ->
         PatchOperation_apply (mkOp c path item) obj = (obj, Raise ValueError))
      /\ (forall k, Py.int seg = Some k -> k >= Py.len l ->
          locate obj path true = Raise JsonPatchConflict)
  | VDict d =>
      Py.dict_get d seg = None -> locate obj path true = Raise JsonPatchConflict
  end.
Proof.
  intros Hsplit Hwalk.
  assert (forall e, _step container seg true = Raise e ->
                    (forall m, _step container seg m = Raise e) ->
                    forall m, locate obj path m = Raise e) as Hany
    by (intros e H1 H2 m; eapply locate_step_Raise; eauto).
  destruct container as [s|l|d].
  - intros c item Hc. apply PatchOperation_apply_locate_Raise_any; [tauto|].
    apply Hany; intros; now apply _step_ValueError.
  - split.
    + intros Hint c item Hc. apply PatchOperation_apply_locate_Raise_any; [exact Hc|].
      apply Hany; intros; now apply _step_ValueError.
    + intros k Hint Hk.
      eapply locate_step_Raise; eauto; intros; apply _step_Conflict; eauto.
  - intros Hget.
    eapply locate_step_Raise; eauto; intros; now apply _step_Conflict.
Qed.

(** [{remove: "/x"}] on [[1]]. *)
Lemma resolution_error_kinds_witness :
  PatchOperation_apply (mkOp RemoveOperation (str "/x") [("remove", str "/x")])
    (VList [num 1])
  = (VList [num 1], Raise ValueError).
Proof.
  exact (proj1 (resolution_error_kinds (VList [num 1]) (str "/x") [] "x" []
                  (VList [num 1]) eq_refl eq_refl)
           eq_refl RemoveOperation [("remove", str "/x")] (or_introl eq_refl)).
Defined.

(** C8 as worded fails: neither exception is a Conflict. *)
Lemma resolution_ValueError_not_Conflict :
  apply_patch (VList [num 1]) [remove_at [""; "x"]]
  = (VList [num 1], Raise ValueError)
  /\ apply_patch (VDict [("a", num 1)]) [remove_at [""; "a"; "b"]]
     = (VDict [("a", num 1)], Raise ValueError)
  /\ Raise (A:=unit) ValueError <> Raise JsonPatchConflict.
Proof. repeat split; try reflexivity. discriminate. Qed.

(** ** Negative indices *)

(** C9: [{remove: "/-1"}] on [[1, 2, 3]] removes the last element and
    returns, where Add and Replace at the same location raise
    [JsonPatchConflict]. *)
Theorem RemoveOperation_negative_index :
  apply_patch (VList [num 1; num 2; num 3]) [remove_at [""; "-1"]]
  = (VList [num 1; num 2], Ok tt)
  /\ apply_patch (VList [num 1; num 2; num 3]) [replace_at [""; "-1"] (num 0)]
     = (VList [num 1; num 2; num 3], Raise JsonPatchConflict)
  /\ apply_patch (VList [num 1; num 2; num 3]) [add_at [""; "-1"] (num 0)]
     = (VList [num 1; num 2; num 3], Raise JsonPatchConflict).
Proof. repeat split. Qed.

(** X15.  Whatever the list, as long as it has an element: [{remove: "/-1"}]
    deletes the last one. *)
Lemma RemoveOperation_last l item :
  l <> [] ->
  RemoveOperation_apply (str "/-1") item (VList l) = (VList (removelast l), Ok tt).
Proof.
  intros Hne. rewrite RemoveOperation_apply_eq.
  assert (0 < Py.len l) as Hlen by (unfold Py.len; destruct l; [congruence|cbn; lia]).
  assert (Py.norm_index (Py.len l) (-1) = Some (Nat.pred (List.length l))) as Hidx.
  { unfold Py.norm_index. cbn [Z.leb Z.compare].
    destruct (Z.leb_spec (- Py.len l) (-1)); [|lia].
    f_equal. unfold Py.len. lia. }
  assert (exists x, nth_error l (Nat.pred (List.length l)) = Some x) as [x Hx].
  { destruct (nth_error l (Nat.pred (List.length l))) eqn:E; [eauto|].
    apply nth_error_None in E. unfold Py.len in Hlen. lia. }
  rewrite (locate_points_to _ (str "/-1") [] "-1" true eq_refl),
    (parent_parts_points_to (str "/-1") [] "-1" eq_refl).
  cbn [walk rbind _step store]. change (Py.int "-1") with (Some (-1)).
  cbn beta iota. destruct (Z.geb_spec (-1) (Py.len l)); [lia|].
  unfold Py.list_getitem. rewrite Hidx, Hx. cbn [of_option rbind Py.delitem].
  unfold Py.list_delitem. rewrite Hidx. cbn [option_map of_option].
  do 3 f_equal.
  replace (S (Nat.pred (List.length l))) with (List.length l)
    by (unfold Py.len in Hlen; lia).
  rewrite skipn_all, app_nil_r. symmetry. apply removelast_firstn_len.
Qed.

(** ** The empty location *)

Lemma locate_empty obj m : locate obj (str "") m = Raise IndexError.
Proof. reflexivity. Qed.

(** C10.  With the empty string as location, the split leaves no step
    after the [pop(0)] and [locate] raises [IndexError] at [parts[-1]].
    Every operation at that location raises, leaves the document alone,
    and what it raises is [IndexError] -- or [KeyError] for an Add,
    Replace or Test that has no value -- never [JsonPatchException],
    [JsonPatchConflict] or [AssertionError]. *)
Theorem empty_location_IndexError obj c item :
  (forall m, locate obj (str "") m = Raise IndexError)
  /\ exists e,
      PatchOperation_apply (mkOp c (str "") item) obj = (obj, Raise e)
      /\ (e = IndexError \/ (e = KeyError /\ Py.dict_get item "value" = None))
      /\ e <> JsonPatchException /\ e <> JsonPatchConflict /\ e <> AssertionError.
Proof.
  split; [intros m; apply locate_empty|].
  assert (forall e, e = IndexError \/ e = KeyError /\ Py.dict_get item "value" = None ->
                    e <> JsonPatchException /\ e <> JsonPatchConflict
                    /\ e <> AssertionError) as Hkinds.
  { intros e [->|[-> _]]; repeat split; discriminate. }
  destruct (Py.dict_get item "value") as [v|] eqn:Hv.
  - exists IndexError. split; [|split; [now left|apply Hkinds; now left]].
    apply (PatchOperation_apply_locate_Raise _ _ _ _ v).
    + unfold field. now rewrite Hv.
    + intros m. apply locate_empty.
  - destruct c.
    1, 4: exists IndexError; split; [reflexivity|split; [now left|apply Hkinds; now left]].
    all: exists KeyError; split;
      [unfold PatchOperation_apply; cbn [cls location operation];
       unfold AddOperation_apply, ReplaceOperation_apply, TestOperation_apply,
         bind, pure, field; rewrite Hv; reflexivity
      |split; [now right|apply Hkinds; now right]].
Qed.

(** ** The loop of [compare_list] *)

Lemma compare_list_at_nth path src dst idx :
  compare_list_at path src dst idx =
  match nth_error src idx, nth_error dst idx with
  | Some s, Some d => compare_values (path ++ [Py.str idx]) s d
  | None, Some d => [add_at (path ++ [Py.str idx]) d]
  | Some s, None => [remove_at (path ++ [Py.str idx])]
  | None, None => []
  end.
Proof.
  unfold compare_list_at.
  destruct (Nat.ltb_spec idx (List.length src)) as [Hs|Hs],
           (Nat.ltb_spec idx (List.length dst)) as [Hd|Hd]; cbn [andb].
  - destruct (nth_error src idx) eqn:Es; [|apply nth_error_None in Es; lia].
    destruct (nth_error dst idx) eqn:Ed; [|apply nth_error_None in Ed; lia].
    reflexivity.
  - destruct (nth_error src idx) eqn:Es; [|apply nth_error_None in Es; lia].
    apply nth_error_None in Hd. now rewrite Hd.
  - apply nth_error_None in Hs. rewrite Hs.
    destruct (nth_error dst idx) eqn:Ed; [|apply nth_error_None in Ed; lia].
    reflexivity.
  - apply nth_error_None in Hs, Hd. now rewrite Hs, Hd.
Qed.

Lemma nth_error_shift {A} (whole part : list A) (x : A) k :
  (forall i, nth_error whole (k + i) = nth_error (x :: part) i) ->
  nth_error whole k = Some x
  /\ forall i, nth_error whole (S k + i) = nth_error part i.
Proof.
  intros H. split.
  - rewrite <- (Nat.add_0_r k). apply (H 0%nat).
  - intros i. replace (S k + i)%nat with (k + S i)%nat by lia. apply (H (S i)).
Qed.

Lemma nth_error_past {A} (whole : list A) k :
  (forall i, nth_error whole (k + i) = nth_error (@nil A) i) ->
  nth_error whole k = None.
Proof.
  intros H. rewrite <- (Nat.add_0_r k). apply (H 0%nat).
Qed.

Lemma nth_error_past_S {A} (whole : list A) k :
  (forall i, nth_error whole (k + i) = nth_error (@nil A) i) ->
  forall i, nth_error whole (S k + i) = nth_error (@nil A) i.
Proof.
  intros H i. replace (S k + i)%nat with (k + S i)%nat by lia.
  rewrite (H (S i)). now destruct i.
Qed.

Lemma flat_map_downto {A} (f : nat -> list A) k n :
  flat_map f (rev (seq k (S n))) = flat_map f (rev (seq (S k) n)) ++ f k.
Proof.
  cbn [seq rev]. rewrite flat_map_app. cbn [flat_map]. now rewrite app_nil_r.
Qed.

Lemma only_dst_loop path whole_src whole_dst dst k :
  (forall i, nth_error whole_src (k + i) = nth_error (@nil value) i) ->
  (forall i, nth_error whole_dst (k + i) = nth_error dst i) ->
  only_dst path k dst =
  flat_map (compare_list_at path whole_src whole_dst) (rev (seq k (List.length dst))).
Proof.
  revert k. induction dst as [|d dst IH]; intros k Hsrc Hdst; [reflexivity|].
  cbn [only_dst List.length]. rewrite flat_map_downto.
  apply nth_error_shift in Hdst as [Hd Hdst].
  rewrite (IH (S k)) by auto using nth_error_past_S.
  rewrite compare_list_at_nth, (nth_error_past _ _ Hsrc), Hd. reflexivity.
Qed.

Lemma indices_loop path whole_src whole_dst src dst k :
  (forall i, nth_error whole_src (k + i) = nth_error src i) ->
  (forall i, nth_error whole_dst (k + i) = nth_error dst i) ->
  indices compare_values path k src dst =
  flat_map (compare_list_at path whole_src whole_dst)
           (rev (seq k (Nat.max (List.length src) (List.length dst)))).
Proof.
  revert dst k. induction src as [|s src IH]; intros dst k Hsrc Hdst.
  - cbn [indices List.length Nat.max]. now apply only_dst_loop.
  - apply nth_error_shift in Hsrc as [Hs Hsrc]. destruct dst as [|d dst].
    + cbn [indices List.length Nat.max]. rewrite flat_map_downto.
      rewrite (IH [] (S k)) by auto using nth_error_past_S.
      cbn [List.length]. rewrite Nat.max_0_r.
      rewrite compare_list_at_nth, Hs, (nth_error_past _ _ Hdst). reflexivity.
    + apply nth_error_shift in Hdst as [Hd Hdst].
      cbn [indices List.length Nat.max]. rewrite flat_map_downto.
      rewrite (IH dst (S k)) by auto.
      rewrite compare_list_at_nth, Hs, Hd. reflexivity.
Qed.

(** X14.  [compare_list] yields, for [idx] from [max(lsrc, ldst) - 1] down to
    [0], what the body of its loop yields at [idx]. *)
Lemma compare_list_loop path src dst :
  compare_list path src dst =
  flat_map (compare_list_at path src dst)
           (rev (seq 0 (Nat.max (List.length src) (List.length dst)))).
Proof. unfold compare_list. now apply indices_loop. Qed.

Lemma compare_values_list path src dst :
  compare_values path (VList src) (VList dst) = compare_list path src dst.
Proof. reflexivity. Qed.

Lemma compare_values_dict path src dst :
  compare_values path (VDict src) (VDict dst) = compare_dict path src dst.
Proof. reflexivity. Qed.

(** ** The patch that [make_patch] generates *)

(** C2: for a [dst] two elements longer than [src], [compare_list] yields
    the Add at the higher index first, and that Add, applied to [src],
    raises [JsonPatchConflict]: the index is past the end of the list. *)
Theorem compare_list_add_past_end :
  compare_list [""; "a"] [] [num 1; num 2]
  = [add_at [""; "a"; "1"] (num 2); add_at [""; "a"; "0"] (num 1)]
  /\ JsonPatch_apply (compare_list [""; "a"] [] [num 1; num 2]) (VDict [("a", VList [])])
     = (VDict [("a", VList [])], Raise JsonPatchConflict)
  /\ run_operation (add_at [""; "a"; "1"] (num 2)) (VDict [("a", VList [])])
     = (VDict [("a", VList [])], Raise JsonPatchConflict).
Proof. repeat split. Qed.

(** C1: for [src = {"a": []}] and [dst = {"a": [1, 2]}], applying
    [make_patch(src, dst)] to [src] raises [JsonPatchConflict] and leaves
    [src] as it was, which is not equal to [dst]. *)
Theorem make_patch_apply_grown_list :
  let src := [("a", VList [])] in
  let dst := [("a", VList [num 1; num 2])] in
  make_patch src dst = [add_at [""; "a"; "1"] (num 2); add_at [""; "a"; "0"] (num 1)]
  /\ JsonPatch_apply (make_patch src dst) (VDict src)
     = (VDict src, Raise JsonPatchConflict)
  /\ Py.eq (fst (JsonPatch_apply (make_patch src dst) (VDict src))) (VDict dst) = false.
Proof. repeat split. Qed.

(** ** More on containers: writing what is there, writing twice, undoing *)

Lemma set_at_same {A} (l : list A) j x :
  nth_error l j = Some x -> firstn j l ++ x :: skipn (S j) l = l.
Proof.
  intros H. apply nth_error_split in H as (l1 & l2 & -> & <-).
  rewrite firstn_app, Nat.sub_diag, firstn_all, app_nil_r.
  replace (S (List.length l1)) with (List.length l1 + 1)%nat by lia.
  rewrite skipn_app, skipn_all2 by lia.
  replace (List.length l1 + 1 - List.length l1)%nat with 1%nat by lia.
  reflexivity.
Qed.

Lemma list_setitem_same {A} (l : list A) i x :
  Py.list_getitem l i = Some x -> Py.list_setitem l i x = Some l.
Proof.
  unfold Py.list_getitem, Py.list_setitem.
  destruct (Py.norm_index (Py.len l) i) as [j|]; [|discriminate].
  intros H. now rewrite set_at_same.
Qed.

Lemma set_at_twice {A} (l : list A) j a b :
  (j < List.length l)%nat ->
  firstn j (firstn j l ++ a :: skipn (S j) l)
  ++ b :: skipn (S j) (firstn j l ++ a :: skipn (S j) l)
  = firstn j l ++ b :: skipn (S j) l.
Proof.
  intros H.
  assert (List.length (firstn j l) = j) as Hlen by (rewrite length_firstn; lia).
  rewrite firstn_app, Hlen, Nat.sub_diag, firstn_O, app_nil_r.
  rewrite firstn_all2 by lia.
  rewrite skipn_app, Hlen. rewrite skipn_all2 by lia.
  replace (S j - j)%nat with 1%nat by lia. reflexivity.
Qed.

Lemma list_setitem_twice {A} (l l1 : list A) i a b :
  Py.list_setitem l i a = Some l1 -> Py.list_setitem l1 i b = Py.list_setitem l i b.
Proof.
  intros H. pose proof (list_setitem_len _ _ _ _ H) as Hlen. revert H.
  unfold Py.list_setitem. rewrite Hlen.
  destruct (Py.norm_index (Py.len l) i) as [j|] eqn:Hj; [|discriminate].
  intros H. apply (f_equal (fun o => match o with Some x => x | None => l end)) in H.
  subst l1. apply norm_index_Some in Hj as [_ Hj]. unfold Py.len in Hj.
  f_equal. apply set_at_twice. lia.
Qed.

Lemma dict_setitem_same {A} (d : list (string * A)) k x :
  Py.dict_get d k = Some x -> Py.dict_setitem d k x = d.
Proof.
  induction d as [|[k' v'] d IH]; cbn; [discriminate|].
  destruct (String.eqb k' k); [now intros [= ->]|]. intros H. now rewrite IH.
Qed.

Lemma dict_setitem_twice {A} (d : list (string * A)) k a b :
  Py.dict_setitem (Py.dict_setitem d k a) k b = Py.dict_setitem d k b.
Proof.
  induction d as [|[k' v'] d IH]; cbn.
  - now rewrite String.eqb_refl.
  - destruct (String.eqb k' k) eqn:E; cbn; rewrite E; [reflexivity|now rewrite IH].
Qed.

Lemma dict_delitem_setitem_new {A} (d : list (string * A)) k v :
  Py.dict_get d k = None -> Py.dict_delitem (Py.dict_setitem d k v) k = Some d.
Proof.
  induction d as [|[k' v'] d IH]; cbn.
  - now rewrite String.eqb_refl.
  - destruct (String.eqb k' k) eqn:E; [discriminate|]. intros H.
    cbn. rewrite E, (IH H). reflexivity.
Qed.

Lemma inserted_drop l k v :
  0 <= k <= Py.len l ->
  firstn (Z.to_nat k) (inserted l k v) ++ skipn (S (Z.to_nat k)) (inserted l k v) = l.
Proof.
  intros H. unfold inserted, Py.len in *.
  assert (List.length (firstn (Z.to_nat k) l) = Z.to_nat k) as Hlen
    by (rewrite length_firstn; lia).
  rewrite firstn_app, Hlen, Nat.sub_diag, firstn_O, app_nil_r.
  rewrite firstn_all2 by lia.
  rewrite skipn_app, Hlen. rewrite skipn_all2 by lia.
  replace (S (Z.to_nat k) - Z.to_nat k)%nat with 1%nat by lia.
  cbn [skipn app]. apply firstn_skipn.
Qed.

Lemma norm_index_nonneg n i :
  0 <= i < n -> Py.norm_index n i = Some (Z.to_nat i).
Proof.
  intros H. unfold Py.norm_index.
  destruct (Z.leb_spec 0 i); [|lia]. destruct (Z.ltb_spec i n); [reflexivity|lia].
Qed.

Lemma norm_index_negative n i :
  - n <= i < 0 -> Py.norm_index n i = Some (Z.to_nat (i + n)).
Proof.
  intros H. unfold Py.norm_index.
  destruct (Z.leb_spec 0 i); [lia|]. destruct (Z.leb_spec (- n) i); [reflexivity|lia].
Qed.

Lemma norm_index_below n i : i < - n -> i < 0 -> Py.norm_index n i = None.
Proof.
  intros H H0. unfold Py.norm_index.
  destruct (Z.leb_spec 0 i); [lia|]. destruct (Z.leb_spec (- n) i); [lia|reflexivity].
Qed.

Lemma inserted_len l k v : Py.len (inserted l k v) = Py.len l + 1.
Proof. unfold Py.len. rewrite inserted_length. lia. Qed.

Lemma list_delitem_inserted l k v :
  0 <= k <= Py.len l -> Py.list_delitem (inserted l k v) k = Some l.
Proof.
  intros H. unfold Py.list_delitem.
  rewrite inserted_len, norm_index_nonneg by lia. now rewrite inserted_drop.
Qed.

Lemma list_getitem_inserted l k v :
  0 <= k <= Py.len l -> Py.list_getitem (inserted l k v) k = Some v.
Proof.
  intros H. unfold Py.list_getitem.
  rewrite inserted_len, norm_index_nonneg by lia. now apply inserted_at.
Qed.

(** ** More on [store] *)

(** Putting back the container that is there changes nothing. *)
Lemma store_same obj parts parent :
  walk obj parts = Ok parent -> store obj parts parent = obj.
Proof.
  revert obj. induction parts as [|p parts IH]; intros obj; cbn [walk store].
  - now intros [= ->].
  - destruct obj as [s|l|d]; cbn [_step rbind]; [discriminate| |].
    + destruct (Py.int p) as [i|]; [|discriminate].
      destruct (i >=? Py.len l); [discriminate|].
      destruct (Py.list_getitem l i) as [child|] eqn:Hchild; cbn [of_option rbind];
        [|discriminate].
      intros Hwalk. rewrite (IH _ Hwalk), (list_setitem_same _ _ _ Hchild).
      reflexivity.
    + destruct (Py.dict_get d p) as [child|] eqn:Hchild; [|discriminate].
      intros Hwalk. rewrite (IH _ Hwalk), (dict_setitem_same _ _ _ Hchild).
      reflexivity.
Qed.

(** Of two mutations of the same container the second one stays. *)
Lemma store_twice obj parts parent a b :
  walk obj parts = Ok parent ->
  store (store obj parts a) parts b = store obj parts b.
Proof.
  revert obj. induction parts as [|p parts IH]; intros obj; cbn [walk store];
    [reflexivity|].
  destruct obj as [s|l|d]; cbn [_step rbind]; [discriminate| |].
  - destruct (Py.int p) as [i|] eqn:Hi; [|discriminate].
    destruct (i >=? Py.len l); [discriminate|].
    destruct (Py.list_getitem l i) as [child|] eqn:Hchild; cbn [of_option rbind];
      [|discriminate].
    intros Hwalk.
    destruct (list_setitem_in_range l i (store child parts a)
                (list_getitem_Some _ _ _ Hchild)) as [l1 Hl1].
    rewrite Hl1. cbn beta iota. rewrite (list_getitem_setitem _ _ _ _ Hl1).
    rewrite (IH _ Hwalk), (list_setitem_twice _ _ _ _ _ Hl1).
    destruct (list_setitem_in_range l i (store child parts b)
                (list_getitem_Some _ _ _ Hchild)) as [l2 ->].
    reflexivity.
  - destruct (Py.dict_get d p) as [child|] eqn:Hchild; [|discriminate].
    intros Hwalk. cbn [store]. rewrite dict_get_setitem_same, (IH _ Hwalk).
    now rewrite dict_setitem_twice.
Qed.

(** ** Writing, then reading or undoing *)

Lemma AddOperation_apply_Ok_inv path item obj obj' :
  AddOperation_apply path item obj = (obj', Ok tt) ->
  exists v init seg subobj x part new,
    field item "value" = Ok v /\ points_to path init seg
    /\ walk obj init = Ok subobj /\ _step subobj seg false = Ok (x, part)
    /\ add_to subobj part v = Ok new /\ obj' = store obj init new.
Proof.
  destruct (field item "value") as [v|e] eqn:Hv.
  - rewrite (AddOperation_apply_eq _ _ _ _ Hv).
    destruct (locate obj path false) as [[subobj part]|e] eqn:Hloc; [|discriminate].
    destruct (add_to subobj part v) as [new|e] eqn:Hadd; [|discriminate].
    intros [= <-].
    apply locate_Ok_inv in Hloc as (init & seg & x & Hpt & Hwalk & Hstep).
    rewrite (parent_parts_points_to _ _ _ Hpt).
    exists v, init, seg, subobj, x, part, new. auto 10.
  - unfold AddOperation_apply, bind, pure. rewrite Hv. discriminate.
Qed.

Lemma ReplaceOperation_apply_Ok_inv path item obj obj' :
  ReplaceOperation_apply path item obj = (obj', Ok tt) ->
  exists v init seg subobj x part new,
    field item "value" = Ok v /\ points_to path init seg
    /\ walk obj init = Ok subobj /\ _step subobj seg true = Ok (x, part)
    /\ replace_in subobj part v = Ok new /\ obj' = store obj init new.
Proof.
  destruct (field item "value") as [v|e] eqn:Hv.
  - rewrite (ReplaceOperation_apply_eq _ _ _ _ Hv).
    destruct (locate obj path true) as [[subobj part]|e] eqn:Hloc; [|discriminate].
    destruct (replace_in subobj part v) as [new|e] eqn:Hrep; [|discriminate].
    intros [= <-].
    apply locate_Ok_inv in Hloc as (init & seg & x & Hpt & Hwalk & Hstep).
    rewrite (parent_parts_points_to _ _ _ Hpt).
    exists v, init, seg, subobj, x, part, new. auto 10.
  - unfold ReplaceOperation_apply, bind, pure. rewrite Hv. discriminate.
Qed.

(** In the container an Add has written to, the last step exists, holds
    the value, and deleting it gives the container back. *)
Lemma add_to_then_step subobj seg x part v new :
  _step subobj seg false = Ok (x, part) ->
  add_to subobj part v = Ok new ->
  _step new seg true = Ok (v, part) /\ Py.delitem new part = Ok subobj.
Proof.
  intros Hstep Hadd. pose proof (_step_part_kind _ _ _ _ _ Hstep) as Hkind.
  destruct subobj as [s|l|d], part as [k|i]; try contradiction; cbn [add_to] in Hadd.
  - destruct (Z.gtb_spec i (Py.len l)); [discriminate|].
    destruct (Z.ltb_spec i 0); [discriminate|]. cbn [orb] in Hadd.
    injection Hadd as <-. rewrite list_insert_inserted by lia.
    cbn [_step Py.delitem]. rewrite Hkind, inserted_len.
    destruct (Z.geb_spec i (Py.len l + 1)); [lia|].
    rewrite list_getitem_inserted, list_delitem_inserted by lia. auto.
  - subst k. cbn [_step] in Hstep. unfold Py.dict_contains in Hadd.
    destruct (Py.dict_get d seg) eqn:Hget; [discriminate|].
    injection Hadd as <-. cbn [_step Py.delitem].
    rewrite dict_get_setitem_same, dict_delitem_setitem_new by assumption. auto.
Qed.

(** In the container a Replace has written to, the last step exists and
    holds the value. *)
Lemma replace_in_then_step subobj seg x part v new :
  _step subobj seg true = Ok (x, part) ->
  replace_in subobj part v = Ok new ->
  _step new seg true = Ok (v, part).
Proof.
  intros Hstep Hrep. pose proof (_step_part_kind _ _ _ _ _ Hstep) as Hkind.
  destruct subobj as [s|l|d], part as [k|i]; try contradiction; cbn [replace_in] in Hrep.
  - destruct ((i >? Py.len l) || (i <? 0)); [discriminate|].
    cbn [Py.setitem] in Hrep.
    destruct (Py.list_setitem l i v) as [l'|] eqn:Hset; [|discriminate].
    injection Hrep as <-. cbn [_step]. rewrite Hkind, (list_setitem_len _ _ _ _ Hset).
    cbn [_step] in Hstep. rewrite Hkind in Hstep.
    destruct (i >=? Py.len l); [discriminate|].
    now rewrite (list_getitem_setitem _ _ _ _ Hset).
  - subst k. destruct (negb (Py.dict_contains d seg)); [discriminate|].
    injection Hrep as <-. cbn [_step]. now rewrite dict_get_setitem_same.
Qed.

(** X3.  The value is found where an Add has put it: after an Add that
    returned, its location resolves as an existing one and holds the
    operation's value. *)
Theorem AddOperation_then_locate path item obj obj' :
  AddOperation_apply path item obj = (obj', Ok tt) ->
  exists v subobj part,
    field item "value" = Ok v
    /\ locate obj' path true = Ok (subobj, part)
    /\ Py.getitem subobj part = Ok v.
Proof.
  intros H.
  apply AddOperation_apply_Ok_inv in H
    as (v & init & seg & subobj & x & part & new & Hv & Hpt & Hwalk & Hstep & Hadd & ->).
  destruct (add_to_then_step _ _ _ _ _ _ Hstep Hadd) as [Hstep' _].
  exists v, new, part. rewrite (locate_points_to _ _ _ _ _ Hpt), (walk_store _ _ _ _ Hwalk).
  cbn [rbind]. rewrite Hstep'. cbn [rbind].
  repeat split; auto. now apply _step_must_exist in Hstep'.
Qed.

Lemma AddOperation_then_locate_witness :
  exists v subobj part,
    field [("add", str "/a/1"); ("value", num 9)] "value" = Ok v
    /\ locate (VDict [("a", VList [num 1; num 9; num 2])]) (str "/a/1") true
       = Ok (subobj, part)
    /\ Py.getitem subobj part = Ok v.
Proof.
  exact (AddOperation_then_locate (str "/a/1") [("add", str "/a/1"); ("value", num 9)]
           (VDict [("a", VList [num 1; num 2])])
           (VDict [("a", VList [num 1; num 9; num 2])]) eq_refl).
Defined.

(** X4.  A Remove undoes an Add: after an Add that returned, the Remove at the
    same location returns and the document is the one before the Add. *)
Theorem AddOperation_then_RemoveOperation path item item' obj obj' :
  AddOperation_apply path item obj = (obj', Ok tt) ->
  RemoveOperation_apply path item' obj' = (obj, Ok tt).
Proof.
  intros H.
  apply AddOperation_apply_Ok_inv in H
    as (v & init & seg & subobj & x & part & new & Hv & Hpt & Hwalk & Hstep & Hadd & ->).
  destruct (add_to_then_step _ _ _ _ _ _ Hstep Hadd) as [Hstep' Hdel].
  rewrite RemoveOperation_apply_eq, (locate_points_to _ _ _ _ _ Hpt),
    (parent_parts_points_to _ _ _ Hpt), (walk_store _ _ _ _ Hwalk).
  cbn [rbind]. rewrite Hstep'. cbn [rbind]. rewrite Hdel.
  now rewrite (store_twice _ _ _ _ _ Hwalk), (store_same _ _ _ Hwalk).
Qed.

Lemma AddOperation_then_RemoveOperation_witness :
  RemoveOperation_apply (str "/1") [("remove", str "/1")]
    (VList [num 1; num 9; num 2; num 3])
  = (VList [num 1; num 2; num 3], Ok tt).
Proof.
  exact (AddOperation_then_RemoveOperation (str "/1")
           [("add", str "/1"); ("value", num 9)] [("remove", str "/1")]
           (VList [num 1; num 2; num 3]) (VList [num 1; num 9; num 2; num 3]) eq_refl).
Defined.

(** X5.  The value is found where a Replace has put it. *)
Theorem ReplaceOperation_then_locate path item obj obj' :
  ReplaceOperation_apply path item obj = (obj', Ok tt) ->
  exists v subobj part,
    field item "value" = Ok v
    /\ locate obj' path true = Ok (subobj, part)
    /\ Py.getitem subobj part = Ok v.
Proof.
  intros H.
  apply ReplaceOperation_apply_Ok_inv in H
    as (v & init & seg & subobj & x & part & new & Hv & Hpt & Hwalk & Hstep & Hrep & ->).
  pose proof (replace_in_then_step _ _ _ _ _ _ Hstep Hrep) as Hstep'.
  exists v, new, part. rewrite (locate_points_to _ _ _ _ _ Hpt), (walk_store _ _ _ _ Hwalk).
  cbn [rbind]. rewrite Hstep'. cbn [rbind].
  repeat split; auto. now apply _step_must_exist in Hstep'.
Qed.

Lemma ReplaceOperation_then_locate_witness :
  exists v subobj part,
    field [("replace", str "/baz/0"); ("value", num 42)] "value" = Ok v
    /\ locate (VDict [("baz", VList [num 42; num 3])]) (str "/baz/0") true
       = Ok (subobj, part)
    /\ Py.getitem subobj part = Ok v.
Proof.
  exact (ReplaceOperation_then_locate (str "/baz/0")
           [("replace", str "/baz/0"); ("value", num 42)]
           (VDict [("baz", VList [num 1; num 3])])
           (VDict [("baz", VList [num 42; num 3])]) eq_refl).
Defined.

(** ** Remove and Replace, case by case *)

Lemma dict_get_None_notin {A} (d : list (string * A)) k :
  Py.dict_get d k = None <-> ~ In k (map fst d).
Proof.
  induction d as [|[k' v'] d IH]; cbn; [tauto|].
  destruct (String.eqb_spec k' k); split; try discriminate; intuition.
Qed.

Lemma dict_delitem_other {A} (d d' : list (string * A)) k k' :
  Py.dict_delitem d k = Some d' -> k' <> k -> Py.dict_get d' k' = Py.dict_get d k'.
Proof.
  revert d'. induction d as [|[k0 v0] d IH]; cbn; intros d'; [discriminate|].
  destruct (String.eqb_spec k0 k) as [->|Hne].
  - intros [= <-] Hk. destruct (String.eqb_spec k k'); congruence.
  - destruct (Py.dict_delitem d k) as [d1|]; cbn; [|discriminate].
    intros [= <-] Hk. cbn. destruct (String.eqb k0 k'); auto.
Qed.

Lemma dict_delitem_gone {A} (d d' : list (string * A)) k :
  NoDup (map fst d) -> Py.dict_delitem d k = Some d' -> Py.dict_get d' k = None.
Proof.
  revert d'. induction d as [|[k0 v0] d IH]; cbn; intros d' Hnd; [discriminate|].
  inversion Hnd as [|? ? Hnotin Hnd']; subst.
  destruct (String.eqb_spec k0 k) as [->|Hne].
  - intros [= <-]. now apply dict_get_None_notin.
  - destruct (Py.dict_delitem d k) as [d1|] eqn:Hd1; cbn; [|discriminate].
    intros [= <-]. cbn. destruct (String.eqb_spec k0 k); [contradiction|]. auto.
Qed.

(** X2.  Let a Remove address [/init.../seg] and let the walk along [init]
    reach [parent].  On a list, with [seg] the integer [k]: the element at
    [k] is deleted when [0 <= k < len], the one at [len + k] when
    [-len <= k < 0]; [k >= len] raises [JsonPatchConflict] and [k < -len]
    raises [IndexError].  On a dict: a missing key raises
    [JsonPatchConflict]; a present key is deleted, the other keys keep
    their values, and the key is gone.  On a scalar the resolution raises
    [ValueError].  A Remove that raises leaves the document alone. *)
Theorem RemoveOperation_apply_cases obj path item init seg parent :
  points_to path init seg ->
  walk obj init = Ok parent ->
  match parent with
  | VList l =>
      forall k, Py.int seg = Some k ->
        let drop j := (store obj init (VList (firstn j l ++ skipn (S j) l)), Ok tt) in
        RemoveOperation_apply path item obj =
        if k >=? Py.len l then (obj, Raise JsonPatchConflict)
        else if 0 <=? k then drop (Z.to_nat k)
        else if - Py.len l <=? k then drop (Z.to_nat (k + Py.len l))
        else (obj, Raise IndexError)
  | VDict d =>
      match Py.dict_get d seg with
      | None => RemoveOperation_apply path item obj = (obj, Raise JsonPatchConflict)
      | Some _ =>
          exists d',
            RemoveOperation_apply path item obj = (store obj init (VDict d'), Ok tt)
            /\ (forall k', k' <> seg -> Py.dict_get d' k' = Py.dict_get d k')
            /\ (NoDup (map fst d) -> Py.dict_get d' seg = None)
      end
  | VScalar _ => RemoveOperation_apply path item obj = (obj, Raise ValueError)
  end.
Proof.
  intros Hpt Hwalk.
  rewrite RemoveOperation_apply_eq, (locate_points_to _ _ _ _ _ Hpt),
    (parent_parts_points_to _ _ _ Hpt), Hwalk.
  cbn [rbind]. destruct parent as [s|l|d]; cbn [_step rbind].
  - reflexivity.
  - intros k ->. cbn beta zeta.
    destruct (Z.geb_spec k (Py.len l)) as [Hge|Hlt]; [reflexivity|].
    unfold Py.list_getitem.
    destruct (Z.leb_spec 0 k) as [H0|H0].
    + rewrite norm_index_nonneg by lia.
      destruct (nth_error l (Z.to_nat k)) eqn:Hnth;
        [|apply nth_error_None in Hnth; unfold Py.len in *; lia].
      cbn [of_option rbind Py.delitem]. unfold Py.list_delitem.
      now rewrite norm_index_nonneg by lia.
    + destruct (Z.leb_spec (- Py.len l) k) as [Hlo|Hlo].
      * rewrite norm_index_negative by lia.
        destruct (nth_error l (Z.to_nat (k + Py.len l))) eqn:Hnth;
          [|apply nth_error_None in Hnth; unfold Py.len in *; lia].
        cbn [of_option rbind Py.delitem]. unfold Py.list_delitem.
        now rewrite norm_index_negative by lia.
      * now rewrite norm_index_below by lia.
  - destruct (Py.dict_get d seg) as [x|] eqn:Hget; cbn [rbind]; [|reflexivity].
    destruct (dict_delitem_present _ _ _ Hget) as [d' Hdel]. exists d'.
    cbn [Py.delitem]. rewrite Hdel. cbn [option_map of_option].
    split; [reflexivity|]. split.
    + intros k' Hk'. now apply (dict_delitem_other d d' seg k').
    + intros Hnd. now apply (dict_delitem_gone d d' seg).
Qed.

Lemma RemoveOperation_apply_cases_witness :
  exists d',
    RemoveOperation_apply (str "/foo") [("remove", str "/foo")]
      (VDict [("foo", str "bar"); ("baz", str "qux")])
    = (store (VDict [("foo", str "bar"); ("baz", str "qux")]) [] (VDict d'), Ok tt)
    /\ (forall k', k' <> "foo" ->
        Py.dict_get d' k' = Py.dict_get [("foo", str "bar"); ("baz", str "qux")] k')
    /\ (NoDup (map fst [("foo", str "bar"); ("baz", str "qux")]) ->
        Py.dict_get d' "foo" = None).
Proof.
  exact (RemoveOperation_apply_cases (VDict [("foo", str "bar"); ("baz", str "qux")])
           (str "/foo") [("remove", str "/foo")] [] "foo"
           (VDict [("foo", str "bar"); ("baz", str "qux")]) eq_refl eq_refl).
Defined.

(** X1.  Let a Replace with a value address [/init.../seg] and let the walk
    along [init] reach [parent].  On a list, with [seg] the integer [k]:
    the element at [k] becomes the value when [0 <= k < len]; [k >= len]
    and [-len <= k < 0] raise [JsonPatchConflict], [k < -len] raises
    [IndexError].  On a dict: a present key gets the value and keeps its
    place, a missing key raises [JsonPatchConflict].  On a scalar the
    resolution raises [ValueError].  A Replace that raises leaves the
    document alone. *)
Theorem ReplaceOperation_apply_cases obj path item v init seg parent :
  field item "value" = Ok v ->
  points_to path init seg ->
  walk obj init = Ok parent ->
  ReplaceOperation_apply path item obj =
  match parent with
  | VList l =>
      match Py.int seg with
      | Some k =>
          if (0 <=? k) && (k <? Py.len l) then
            (store obj init
               (VList (firstn (Z.to_nat k) l ++ v :: skipn (S (Z.to_nat k)) l)), Ok tt)
          else if (k >=? Py.len l) || (- Py.len l <=? k) then
            (obj, Raise JsonPatchConflict)
          else (obj, Raise IndexError)
      | None => (obj, Raise ValueError)
      end
  | VDict d =>
      if Py.dict_contains d seg then
        (store obj init (VDict (Py.dict_setitem d seg v)), Ok tt)
      else (obj, Raise JsonPatchConflict)
  | VScalar _ => (obj, Raise ValueError)
  end.
Proof.
  intros Hv Hpt Hwalk.
  rewrite (ReplaceOperation_apply_eq _ _ _ _ Hv), (locate_points_to _ _ _ _ _ Hpt),
    (parent_parts_points_to _ _ _ Hpt), Hwalk.
  cbn [rbind]. destruct parent as [s|l|d]; cbn [_step rbind].
  - reflexivity.
  - destruct (Py.int seg) as [k|]; [|reflexivity].
    destruct (Z.geb_spec k (Py.len l)) as [Hge|Hlt].
    { destruct (Z.leb_spec 0 k), (Z.ltb_spec k (Py.len l)); cbn [andb orb rbind];
        try reflexivity; unfold Py.len in *; lia. }
    unfold Py.list_getitem. destruct (Z.leb_spec 0 k) as [H0|H0].
    + destruct (Z.ltb_spec k (Py.len l)); [|lia]. cbn [andb].
      rewrite norm_index_nonneg by lia.
      destruct (nth_error l (Z.to_nat k)) eqn:Hnth;
        [|apply nth_error_None in Hnth; unfold Py.len in *; lia].
      cbn [of_option rbind replace_in].
      destruct (Z.gtb_spec k (Py.len l)); [lia|].
      destruct (Z.ltb_spec k 0); [lia|]. cbn [orb Py.setitem].
      unfold Py.list_setitem. now rewrite norm_index_nonneg by lia.
    + cbn [andb orb]. destruct (Z.leb_spec (- Py.len l) k) as [Hlo|Hlo].
      * rewrite norm_index_negative by lia.
        destruct (nth_error l (Z.to_nat (k + Py.len l))) eqn:Hnth;
          [|apply nth_error_None in Hnth; unfold Py.len in *; lia].
        cbn [of_option rbind replace_in].
        destruct (Z.gtb_spec k (Py.len l)); [lia|].
        destruct (Z.ltb_spec k 0); [|lia]. reflexivity.
      * now rewrite norm_index_below by lia.
  - unfold Py.dict_contains.
    destruct (Py.dict_get d seg) as [x|] eqn:Hget; cbn [rbind replace_in];
      [|reflexivity].
    unfold Py.dict_contains. rewrite Hget. reflexivity.
Qed.

Lemma ReplaceOperation_apply_cases_witness :
  ReplaceOperation_apply (str "/baz/0") [("replace", str "/baz/0"); ("value", num 42)]
    (VDict [("baz", VList [num 1; num 3])])
  = (VDict [("baz", VList [num 42; num 3])], Ok tt).
Proof.
  exact (ReplaceOperation_apply_cases (VDict [("baz", VList [num 1; num 3])])
           (str "/baz/0") [("replace", str "/baz/0"); ("value", num 42)] (num 42)
           ["baz"] "0" (VList [num 1; num 3]) eq_refl eq_refl eq_refl).
Defined.

(** ** Locations that are turned down *)

Lemma split_head_not_sep sep c s :
  Ascii.eqb c sep = false ->
  exists part parts, Py.split sep (String c s) = String c part :: parts.
Proof.
  intros H. cbn [Py.split]. rewrite H. destruct (Py.split sep s); eauto.
Qed.

(** X6.  A location that is not empty and does not begin with [/] is turned
    down with [JsonPatchException] by every operation, whatever the
    document, which is left alone. *)
Theorem location_must_start_with_slash obj c ch s item v :
  Ascii.eqb ch "/" = false ->
  field item "value" = Ok v ->
  PatchOperation_apply (mkOp c (str (String ch s)) item) obj
  = (obj, Raise JsonPatchException).
Proof.
  intros Hch Hv. apply (PatchOperation_apply_locate_Raise _ _ _ _ v _ Hv).
  intros m. unfold locate, str. cbn [split_location rbind].
  destruct (split_head_not_sep "/" ch s Hch) as (part & parts & ->).
  reflexivity.
Qed.

Lemma location_must_start_with_slash_witness :
  PatchOperation_apply (mkOp AddOperation (str "baz") [("add", str "baz"); ("value", num 1)])
    (VDict [("foo", str "bar")])
  = (VDict [("foo", str "bar")], Raise JsonPatchException).
Proof.
  exact (location_must_start_with_slash (VDict [("foo", str "bar")]) AddOperation
           "b"%char "az" [("add", str "baz"); ("value", num 1)] (num 1)
           eq_refl eq_refl).
Defined.

(** X7.  Every step but the last must exist, for an Add as for the others: if
    a step with further steps after it names a key the dict lacks, or an
    index at or past the end of the list, the operation raises
    [JsonPatchConflict] and leaves the document alone. *)
Theorem intermediate_step_must_exist obj path pre seg post container c item :
  split_location path = Ok ("" :: pre ++ seg :: post) ->
  post <> [] ->
  walk obj pre = Ok container ->
  c = RemoveOperation \/ c = MoveOperation
  \/ (exists v, field item "value" = Ok v) ->
  match container with
  | VDict d => Py.dict_get d seg = None
  | VList l => exists k, Py.int seg = Some k /\ k >= Py.len l
  | VScalar _ => False
  end ->
  PatchOperation_apply (mkOp c path item) obj = (obj, Raise JsonPatchConflict).
Proof.
  intros Hsplit Hpost Hwalk Hc Hmiss.
  apply PatchOperation_apply_locate_Raise_any; [exact Hc|]. intros m.
  eapply locate_step_Raise; eauto using _step_Conflict. contradiction.
Qed.

(** [{add: "/a/b", value: 1}] on [{}], and [{remove: "/a/b"}]. *)
Lemma intermediate_step_must_exist_witness :
  PatchOperation_apply (mkOp AddOperation (str "/a/b") [("add", str "/a/b"); ("value", num 1)])
    (VDict [])
  = (VDict [], Raise JsonPatchConflict)
  /\ PatchOperation_apply (mkOp RemoveOperation (str "/a/b") [("remove", str "/a/b")])
       (VDict [])
     = (VDict [], Raise JsonPatchConflict).
Proof.
  split.
  - refine (intermediate_step_must_exist (VDict []) (str "/a/b") [] "a" ["b"] (VDict [])
              AddOperation [("add", str "/a/b"); ("value", num 1)]
              eq_refl _ eq_refl
              (or_intror (or_intror (ex_intro _ (num 1) eq_refl))) eq_refl).
    discriminate.
  - refine (intermediate_step_must_exist (VDict []) (str "/a/b") [] "a" ["b"] (VDict [])
              RemoveOperation [("remove", str "/a/b")]
              eq_refl _ eq_refl (or_introl eq_refl) eq_refl).
    discriminate.
Defined.

(** ** Patches *)

(** X8.  Applying two patches one after the other is applying their
    concatenation: the second runs on the document the first leaves, and
    is not run at all when the first raises. *)
Theorem apply_patch_concat doc patch1 patch2 :
  apply_patch doc (patch1 ++ patch2) =
  match apply_patch doc patch1 with
  | (doc1, Ok _) => apply_patch doc1 patch2
  | (doc1, Raise e) => (doc1, Raise e)
  end.
Proof.
  unfold apply_patch. revert doc.
  induction patch1 as [|item patch1 IH]; intros doc; [reflexivity|].
  cbn [app]. rewrite !JsonPatch_apply_cons.
  destruct (run_operation item doc) as [doc1 [[]|e]]; [apply IH|reflexivity].
Qed.

(** X9.  A patch made of Test operations only never changes the document,
    whether the tests pass or one of them raises. *)
Theorem JsonPatch_apply_tests_only patch doc :
  Forall (fun item => exists path, _get_operation item = Ok (mkOp TestOperation path item))
         patch ->
  fst (JsonPatch_apply patch doc) = doc.
Proof.
  induction 1 as [|item patch [path Hop] _ IH]; [reflexivity|].
  rewrite JsonPatch_apply_cons. unfold run_operation, bind, pure. rewrite Hop.
  unfold PatchOperation_apply. cbn [cls location operation].
  pose proof (TestOperation_apply_fst path item doc) as Hfst.
  destruct (TestOperation_apply path item doc) as [doc' [[]|e]]; cbn [fst] in *;
    subst doc'; [exact IH|reflexivity].
Qed.

Lemma JsonPatch_apply_tests_only_witness :
  fst (JsonPatch_apply
         [[("test", str "/foo"); ("value", str "bar")];
          [("test", str "/foo"); ("value", str "qux")]]
         (VDict [("foo", str "bar")]))
  = VDict [("foo", str "bar")].
Proof.
  apply JsonPatch_apply_tests_only.
  repeat constructor; eexists; reflexivity.
Defined.

(** [{remove: "/-1"}] on [[1, 2, 3]]. *)
Lemma RemoveOperation_last_witness :
  RemoveOperation_apply (str "/-1") [("remove", str "/-1")] (VList [num 1; num 2; num 3])
  = (VList [num 1; num 2], Ok tt).
Proof.
  refine (RemoveOperation_last [num 1; num 2; num 3] [("remove", str "/-1")] _).
  discriminate.
Defined.

(** ** Induction on value trees *)

Lemma value_nested_ind (P : value -> Prop) :
  (forall s, P (VScalar s)) ->
  (forall l, Forall P l -> P (VList l)) ->
  (forall d, Forall (fun kv => P (snd kv)) d -> P (VDict d)) ->
  forall v, P v.
Proof.
  intros Hs Hl Hd. fix IH 1. intros [s|l|d].
  - apply Hs.
  - apply Hl. induction l as [|x l IHl]; constructor; [apply IH|exact IHl].
  - apply Hd. induction d as [|[k x] d IHd]; constructor; [apply IH|exact IHd].
Qed.

(** ** Equal documents *)

Lemma eq_dict_inv d e :
  Py.eq (VDict d) (VDict e) = true ->
  List.length d = List.length e
  /\ Forall (fun kv => exists w, Py.dict_get e (fst kv) = Some w
                                 /\ Py.eq (snd kv) w = true) d.
Proof.
  cbn [Py.eq]. intros H. apply andb_true_iff in H as [Hlen Hitems].
  split; [now apply Nat.eqb_eq|]. clear Hlen.
  induction d as [|[k v] d IH]; constructor.
  - cbn [fst snd]. apply andb_true_iff in Hitems as [Hkv _].
    destruct (Py.dict_get e k) as [w|]; [eauto|discriminate].
  - apply IH. now apply andb_true_iff in Hitems as [_ Hrest].
Qed.

Lemma dict_get_Some_in {A} (d : list (string * A)) k v :
  Py.dict_get d k = Some v -> In k (map fst d).
Proof.
  intros H. destruct (in_dec string_dec k (map fst d)) as [Hin|Hnot]; [exact Hin|].
  apply dict_get_None_notin in Hnot. congruence.
Qed.

Lemma dict_contains_in {A} (d : list (string * A)) k :
  In k (map fst d) -> Py.dict_contains d k = true.
Proof.
  intros Hin. unfold Py.dict_contains.
  destruct (Py.dict_get d k) eqn:Hget; [reflexivity|].
  apply dict_get_None_notin in Hget. contradiction.
Qed.

Lemma src_keys_equal cmp path items dst :
  Forall (fun kv => exists w, Py.dict_get dst (fst kv) = Some w
                              /\ Py.eq (snd kv) w = true) items ->
  src_keys cmp path items dst = [].
Proof.
  induction 1 as [|[k v] items (w & Hget & Heq) _ IH]; [reflexivity|].
  cbn [src_keys fst snd] in *. now rewrite Hget, Heq, IH.
Qed.

Lemma dst_keys_covered path src items :
  incl (map fst items) (map fst src) -> dst_keys path src items = [].
Proof.
  induction items as [|[k w] items IH]; intros Hincl; [reflexivity|].
  cbn [dst_keys]. rewrite dict_contains_in by (apply Hincl; now left).
  cbn [negb app]. apply IH. intros x Hx. apply Hincl. now right.
Qed.

(** X10.  The diff of two equal objects is empty: when [src == dst] (and [src]
    has no key twice, as every dict), [compare_dict] yields nothing at any
    path, and [make_patch(src, dst)] is the empty patch. *)
Theorem make_patch_equal src dst :
  NoDup (keys src) ->
  Py.eq (VDict src) (VDict dst) = true ->
  (forall path, compare_dict path src dst = []) /\ make_patch src dst = [].
Proof.
  intros Hnd Heq. apply eq_dict_inv in Heq as [Hlen Hitems].
  assert (forall path, compare_dict path src dst = []) as Hall;
    [|split; [exact Hall|exact (Hall [""])]].
  intros path. unfold compare_dict.
  rewrite (src_keys_equal _ _ _ _ Hitems). cbn [app].
  apply dst_keys_covered. apply NoDup_length_incl; [exact Hnd| |].
  - unfold keys. rewrite !length_map. lia.
  - intros k Hk. apply in_map_iff in Hk as ([k' v] & <- & Hin).
    rewrite Forall_forall in Hitems. destruct (Hitems _ Hin) as (w & Hget & _).
    now apply dict_get_Some_in in Hget.
Qed.

(** The two objects hold the same entries, inserted in another order. *)
Lemma make_patch_equal_witness :
  (forall path,
      compare_dict path [("a", num 1); ("b", VList [num 2])]
        [("b", VList [num 2]); ("a", num 1)] = [])
  /\ make_patch [("a", num 1); ("b", VList [num 2])]
       [("b", VList [num 2]); ("a", num 1)] = [].
Proof.
  apply make_patch_equal; [|reflexivity].
  unfold keys; cbn; repeat constructor; cbn; intuition discriminate.
Defined.

(** ** What the diff writes *)

Lemma generated_deeper path key rest item :
  generated ((path ++ [key]) ++ rest) item -> generated (path ++ key :: rest) item.
Proof. now rewrite <- app_assoc. Qed.

Lemma only_dst_generated path k dst :
  Forall (fun item => exists rest, rest <> [] /\ generated (path ++ rest) item)
         (only_dst path k dst).
Proof.
  revert k. induction dst as [|d dst IH]; intros k; cbn [only_dst]; [constructor|].
  apply Forall_app. split; [apply IH|]. constructor; [|constructor].
  exists [Py.str k]. split; [discriminate|]. right; left. eauto.
Qed.

Lemma indices_generated cmp path src :
  Forall (fun x => forall p b,
              Forall (fun item => exists rest, generated (p ++ rest) item) (cmp p x b))
         src ->
  forall k dst,
    Forall (fun item => exists rest, rest <> [] /\ generated (path ++ rest) item)
           (indices cmp path k src dst).
Proof.
  induction 1 as [|s src Hs _ IH]; intros k dst; cbn [indices];
    [apply only_dst_generated|].
  destruct dst as [|d dst]; apply Forall_app; (split; [apply IH|]).
  - constructor; [|constructor].
    exists [Py.str k]. split; [discriminate|]. now left.
  - eapply Forall_impl; [|apply Hs]. intros item [rest Hgen].
    exists (Py.str k :: rest). split; [discriminate|]. now apply generated_deeper.
Qed.

Lemma src_keys_generated cmp path items dst :
  Forall (fun kv => forall p b,
              Forall (fun item => exists rest, generated (p ++ rest) item)
                     (cmp p (snd kv) b))
         items ->
  Forall (fun item => exists rest, rest <> [] /\ generated (path ++ rest) item)
         (src_keys cmp path items dst).
Proof.
  induction 1 as [|[key v] items Hv _ IH]; cbn [src_keys]; [constructor|].
  apply Forall_app. split; [|exact IH]. cbn [snd] in Hv.
  destruct (Py.dict_get dst key) as [w|].
  - destruct (negb (Py.eq v w)); [|constructor].
    eapply Forall_impl; [|apply Hv]. intros item [rest Hgen].
    exists (key :: rest). split; [discriminate|]. now apply generated_deeper.
  - constructor; [|constructor]. exists [key]. split; [discriminate|]. now left.
Qed.

Lemma dst_keys_generated path src items :
  Forall (fun item => exists rest, rest <> [] /\ generated (path ++ rest) item)
         (dst_keys path src items).
Proof.
  induction items as [|[key w] items IH]; cbn [dst_keys]; [constructor|].
  apply Forall_app. split; [|exact IH].
  destruct (negb (Py.dict_contains src key)); constructor; [|constructor].
  exists [key]. split; [discriminate|]. right; left. eauto.
Qed.

Lemma Forall_generated_weaken path items :
  Forall (fun item => exists rest, rest <> [] /\ generated (path ++ rest) item) items ->
  Forall (fun item : dict => exists rest, generated (path ++ rest) item) items.
Proof.
  apply Forall_impl. intros item (rest & _ & H). eauto.
Qed.

(** Whatever [compare_values] yields at [path] is a remove, an add or a
    replace at [path] or below it. *)
Lemma compare_values_generated val :
  forall path other,
    Forall (fun item => exists rest, generated (path ++ rest) item)
           (compare_values path val other).
Proof.
  induction val as [s|l IH|d IH] using value_nested_ind; intros path other.
  - cbn [compare_values]. constructor; [|constructor].
    exists []. rewrite app_nil_r. right; right. eauto.
  - destruct other as [s'|l'|d']; cbn [compare_values];
      try (constructor; [|constructor]; exists []; rewrite app_nil_r;
           right; right; eauto).
    apply Forall_generated_weaken. now apply indices_generated.
  - destruct other as [s'|l'|d']; cbn [compare_values];
      try (constructor; [|constructor]; exists []; rewrite app_nil_r;
           right; right; eauto).
    apply Forall_generated_weaken, Forall_app. split.
    + now apply src_keys_generated.
    + apply dst_keys_generated.
Qed.

Lemma generated_dispatch path item :
  generated path item ->
  (item = remove_at path
   /\ _get_operation item = Ok (mkOp RemoveOperation (loc path) item))
  \/ (exists v, item = add_at path v
                /\ _get_operation item = Ok (mkOp AddOperation (loc path) item))
  \/ (exists v, item = replace_at path v
                /\ _get_operation item = Ok (mkOp ReplaceOperation (loc path) item)).
Proof.
  intros [->|[[v ->]|[v ->]]]; [left|right; left; exists v|right; right; exists v];
    split; reflexivity.
Qed.

(** X11.  Every operation that [make_patch] yields is [{remove: p}],
    [{add: p, value: v}] or [{replace: p, value: v}], with [p] a location
    that begins with [/], and [_get_operation] makes it a Remove, an Add or
    a Replace at [p] accordingly: the diff writes no Move, no Test and
    nothing that the dispatch turns down. *)
Theorem make_patch_operations src dst :
  Forall (fun item =>
            exists rest s,
              loc ("" :: rest) = str (String "/" s)
              /\ ((item = remove_at ("" :: rest)
                   /\ _get_operation item
                      = Ok (mkOp RemoveOperation (loc ("" :: rest)) item))
                  \/ (exists v,
                         item = add_at ("" :: rest) v
                         /\ _get_operation item
                            = Ok (mkOp AddOperation (loc ("" :: rest)) item))
                  \/ (exists v,
                         item = replace_at ("" :: rest) v
                         /\ _get_operation item
                            = Ok (mkOp ReplaceOperation (loc ("" :: rest)) item))))
         (make_patch src dst).
Proof.
  unfold make_patch, compare_dict.
  assert (Forall (fun item => exists rest, rest <> [] /\ generated ([""] ++ rest) item)
                 (src_keys compare_values [""] src dst ++ dst_keys [""] src dst)) as H.
  { apply Forall_app. split; [|apply dst_keys_generated].
    apply src_keys_generated. apply Forall_forall. intros kv _ p b.
    apply compare_values_generated. }
  eapply Forall_impl; [|exact H]. intros item (rest & Hne & Hgen).
  destruct rest as [|r rest]; [congruence|].
  exists (r :: rest), (String.concat "/" (r :: rest)).
  split; [reflexivity|]. now apply generated_dispatch.
Qed.

(** ** Operations on the keys of the root object *)

Lemma split_no_slash key : no_slash key = true -> Py.split "/" key = [key].
Proof.
  induction key as [|c key IH]; [reflexivity|]. cbn [no_slash Py.split].
  intros H. apply andb_true_iff in H as [Hc Hkey].
  apply negb_true_iff in Hc. rewrite Hc, (IH Hkey). reflexivity.
Qed.

Lemma points_to_root_key key :
  no_slash key = true -> points_to (loc [""; key]) [] key.
Proof.
  intros H. unfold points_to, loc, Py.join. cbn [String.concat String.append].
  cbn [split_location Py.split]. rewrite Ascii.eqb_refl, (split_no_slash _ H).
  reflexivity.
Qed.

Lemma run_remove_root key cur x d' :
  no_slash key = true ->
  Py.dict_get cur key = Some x ->
  Py.dict_delitem cur key = Some d' ->
  run_operation (remove_at [""; key]) (VDict cur) = (VDict d', Ok tt).
Proof.
  intros Hkey Hget Hdel. pose proof (points_to_root_key _ Hkey) as Hpt.
  unfold run_operation, bind, pure.
  change (_get_operation (remove_at [""; key]))
    with (Ok (mkOp RemoveOperation (loc [""; key]) (remove_at [""; key]))).
  unfold PatchOperation_apply. cbn [cls location operation].
  rewrite RemoveOperation_apply_eq, (locate_points_to _ _ _ _ _ Hpt),
    (parent_parts_points_to _ _ _ Hpt).
  cbn [walk rbind _step store]. rewrite Hget. cbn [rbind Py.delitem].
  rewrite Hdel. reflexivity.
Qed.

Lemma run_replace_root key cur x w :
  no_slash key = true ->
  Py.dict_get cur key = Some x ->
  run_operation (replace_at [""; key] w) (VDict cur)
  = (VDict (Py.dict_setitem cur key w), Ok tt).
Proof.
  intros Hkey Hget. pose proof (points_to_root_key _ Hkey) as Hpt.
  unfold run_operation, bind, pure.
  change (_get_operation (replace_at [""; key] w))
    with (Ok (mkOp ReplaceOperation (loc [""; key]) (replace_at [""; key] w))).
  unfold PatchOperation_apply. cbn [cls location operation].
  rewrite (ReplaceOperation_apply_eq _ (replace_at [""; key] w) _ w eq_refl),
    (locate_points_to _ _ _ _ _ Hpt), (parent_parts_points_to _ _ _ Hpt).
  cbn [walk rbind _step store]. rewrite Hget. cbn [rbind replace_in].
  unfold Py.dict_contains. rewrite Hget. reflexivity.
Qed.

Lemma run_add_root key cur w :
  no_slash key = true ->
  Py.dict_get cur key = None ->
  run_operation (add_at [""; key] w) (VDict cur)
  = (VDict (Py.dict_setitem cur key w), Ok tt).
Proof.
  intros Hkey Hget. pose proof (points_to_root_key _ Hkey) as Hpt.
  unfold run_operation, bind, pure.
  change (_get_operation (add_at [""; key] w))
    with (Ok (mkOp AddOperation (loc [""; key]) (add_at [""; key] w))).
  unfold PatchOperation_apply. cbn [cls location operation].
  rewrite (AddOperation_apply_eq _ (add_at [""; key] w) _ w eq_refl),
    (locate_points_to _ _ _ _ _ Hpt), (parent_parts_points_to _ _ _ Hpt).
  cbn [walk rbind _step store]. rewrite Hget. cbn [rbind add_to].
  unfold Py.dict_contains. rewrite Hget. reflexivity.
Qed.

(** ** Entries in the middle of a dict *)

Lemma dict_get_app_notin {A} (pre post : list (string * A)) k :
  ~ In k (map fst pre) -> Py.dict_get (pre ++ post) k = Py.dict_get post k.
Proof.
  induction pre as [|[k' v'] pre IH]; cbn; [reflexivity|]. intros H.
  destruct (String.eqb_spec k' k); [tauto|]. apply IH. tauto.
Qed.

Lemma dict_delitem_middle {A} (pre post : list (string * A)) k v :
  ~ In k (map fst pre) ->
  Py.dict_delitem (pre ++ (k, v) :: post) k = Some (pre ++ post).
Proof.
  induction pre as [|[k' v'] pre IH]; cbn; intros H.
  - now rewrite String.eqb_refl.
  - destruct (String.eqb_spec k' k); [tauto|]. rewrite IH by tauto. reflexivity.
Qed.

Lemma dict_setitem_middle {A} (pre post : list (string * A)) k v w :
  ~ In k (map fst pre) ->
  Py.dict_setitem (pre ++ (k, v) :: post) k w = pre ++ (k, w) :: post.
Proof.
  induction pre as [|[k' v'] pre IH]; cbn; intros H.
  - now rewrite String.eqb_refl.
  - destruct (String.eqb_spec k' k); [tauto|]. rewrite IH by tauto. reflexivity.
Qed.

Lemma dict_setitem_new {A} (d : list (string * A)) k v :
  Py.dict_get d k = None -> Py.dict_setitem d k v = d ++ [(k, v)].
Proof.
  induction d as [|[k' v'] d IH]; cbn; [reflexivity|].
  destruct (String.eqb k' k); [discriminate|]. intros H. now rewrite IH.
Qed.

Lemma dict_get_NoDup_in {A} (d : list (string * A)) k v :
  NoDup (map fst d) -> In (k, v) d -> Py.dict_get d k = Some v.
Proof.
  induction d as [|[k' v'] d IH]; cbn; intros Hnd Hin; [contradiction|].
  inversion Hnd as [|? ? Hnotin Hnd']; subst.
  destruct Hin as [[= -> ->]|Hin]; [now rewrite String.eqb_refl|].
  destruct (String.eqb_spec k' k) as [->|Hne]; [|auto].
  exfalso. apply Hnotin. now apply (in_map fst) in Hin.
Qed.

Lemma dict_get_Some_In {A} (d : list (string * A)) k v :
  Py.dict_get d k = Some v -> In (k, v) d.
Proof.
  induction d as [|[k' v'] d IH]; cbn; [discriminate|].
  destruct (String.eqb_spec k' k) as [->|Hne]; [intros [= ->]; now left|auto].
Qed.

Lemma NoDup_keys_middle {A} (pre post : list (string * A)) k v :
  NoDup (map fst (pre ++ (k, v) :: post)) ->
  ~ In k (map fst pre) /\ NoDup (map fst (pre ++ post)).
Proof.
  rewrite !map_app. cbn [map fst]. intros H.
  pose proof (NoDup_remove_1 _ _ _ H). pose proof (NoDup_remove_2 _ _ _ H) as Hn.
  split; [|assumption]. intros Hin. apply Hn, in_or_app. now left.
Qed.

(** ** The diff of two objects with scalar values, applied *)

Lemma compare_values_scalar path val s :
  compare_values path val (VScalar s) = [replace_at path (VScalar s)].
Proof. destruct val; reflexivity. Qed.

Lemma flat_get dst key w :
  flat dst -> Py.dict_get dst key = Some w -> exists s, w = VScalar s.
Proof.
  intros Hflat Hget. apply dict_get_Some_In in Hget.
  unfold flat in Hflat. rewrite Forall_forall in Hflat.
  exact (Hflat _ Hget).
Qed.

Lemma app_cons_assoc {A} (pre : list A) x post :
  pre ++ x :: post = (pre ++ [x]) ++ post.
Proof. now rewrite <- app_assoc. Qed.

Lemma keys_middle_value (pre post : dict) k v w :
  keys (pre ++ (k, v) :: post) = keys (pre ++ (k, w) :: post).
Proof. unfold keys. now rewrite !map_app. Qed.

(** The first loop: on [src], its operations leave [merged src dst]. *)
Lemma src_keys_run dst items :
  flat dst ->
  forall pre,
    NoDup (keys (pre ++ items)) ->
    Forall (fun k => no_slash k = true) (keys items) ->
    JsonPatch_apply (src_keys compare_values [""] items dst) (VDict (pre ++ items))
    = (VDict (pre ++ merged items dst), Ok tt).
Proof.
  intros Hflat. induction items as [|[key v] items IH]; intros pre Hnd Hns;
    [reflexivity|].
  cbn [keys map fst] in Hns. inversion Hns as [|? ? Hkey Hns']; subst.
  destruct (NoDup_keys_middle _ _ _ _ Hnd) as [Hnotin Hnd'].
  assert (Py.dict_get (pre ++ (key, v) :: items) key = Some v) as Hcur.
  { rewrite dict_get_app_notin by assumption. cbn. now rewrite String.eqb_refl. }
  cbn [src_keys merged]. cbn [app].
  destruct (Py.dict_get dst key) as [w|] eqn:Hget.
  - destruct (Py.eq v w) eqn:Heq; cbn [negb app].
    + rewrite (app_cons_assoc pre (key, v) items),
        (app_cons_assoc pre (key, v) (merged items dst)).
      apply IH; [|assumption]. now rewrite <- app_cons_assoc.
    + destruct (flat_get _ _ _ Hflat Hget) as [s ->].
      rewrite compare_values_scalar. cbn [app].
      rewrite JsonPatch_apply_cons, (run_replace_root _ _ _ _ Hkey Hcur).
      rewrite dict_setitem_middle by assumption.
      rewrite (app_cons_assoc pre (key, VScalar s) items),
        (app_cons_assoc pre (key, VScalar s) (merged items dst)).
      apply IH; [|assumption].
      rewrite <- app_cons_assoc. now rewrite (keys_middle_value _ _ _ _ v).
  - cbn [app]. rewrite JsonPatch_apply_cons,
      (run_remove_root _ _ _ _ Hkey Hcur (dict_delitem_middle _ _ _ _ Hnotin)).
    now apply IH.
Qed.

(** The second loop: its operations append [added src dst]. *)
Lemma dst_keys_run src items :
  forall cur,
    NoDup (keys items) ->
    Forall (fun k => no_slash k = true) (keys items) ->
    (forall k, In k (keys items) -> Py.dict_contains src k = false ->
               Py.dict_get cur k = None) ->
    JsonPatch_apply (dst_keys [""] src items) (VDict cur)
    = (VDict (cur ++ added src items), Ok tt).
Proof.
  induction items as [|[key w] items IH]; intros cur Hnd Hns Hfree.
  - cbn. now rewrite app_nil_r.
  - cbn [keys map fst] in Hnd, Hns, Hfree.
    inversion Hnd as [|? ? Hnotin Hnd']; subst.
    inversion Hns as [|? ? Hkey Hns']; subst.
    cbn [dst_keys added filter fst].
    destruct (Py.dict_contains src key) eqn:Hin; cbn [negb app].
    + apply IH; auto. intros k Hk. apply Hfree. now right.
    + assert (Py.dict_get cur key = None) as Hcur
        by (apply Hfree; [now left|assumption]).
      rewrite JsonPatch_apply_cons, (run_add_root _ _ _ Hkey Hcur).
      fold (added src items).
      rewrite (dict_setitem_new _ _ _ Hcur),
        (app_cons_assoc cur (key, w) (added src items)).
      apply IH; auto. intros k Hk Hk'.
      assert (k <> key) as Hne by (intros ->; contradiction).
      apply dict_get_None_notin. rewrite map_app, in_app_iff. cbn [map fst In].
      intros [H|[H|[]]]; [|congruence].
      refine (proj1 (dict_get_None_notin cur k) _ H).
      apply Hfree; [now right|assumption].
Qed.

Lemma scalar_eq_refl s : Py.scalar_eq s s = true.
Proof.
  destruct s as [|b|n|s]; cbn; auto using Bool.eqb_reflx, Z.eqb_refl, String.eqb_refl.
Qed.

Lemma eq_dict_intro d e :
  List.length d = List.length e ->
  Forall (fun kv => exists w, Py.dict_get e (fst kv) = Some w
                              /\ Py.eq (snd kv) w = true) d ->
  Py.eq (VDict d) (VDict e) = true.
Proof.
  intros Hlen Hitems. cbn [Py.eq]. apply andb_true_iff.
  split; [now apply Nat.eqb_eq|]. clear Hlen.
  induction Hitems as [|[k v] d (w & Hget & Heq) _ IH]; [reflexivity|].
  cbn [fst snd] in *. now rewrite Hget, Heq, IH.
Qed.

Lemma merged_entries dst items :
  flat dst ->
  Forall (fun kv => exists w, Py.dict_get dst (fst kv) = Some w
                              /\ Py.eq (snd kv) w = true) (merged items dst).
Proof.
  intros Hflat. induction items as [|[key v] items IH]; cbn [merged]; [constructor|].
  destruct (Py.dict_get dst key) as [w|] eqn:Hget; [|exact IH].
  constructor; [|exact IH]. exists w. cbn [fst snd]. split; [assumption|].
  destruct (Py.eq v w) eqn:Heq; [assumption|].
  destruct (flat_get _ _ _ Hflat Hget) as [s ->]. apply scalar_eq_refl.
Qed.

Lemma added_entries src dst :
  NoDup (keys dst) -> flat dst ->
  Forall (fun kv => exists w, Py.dict_get dst (fst kv) = Some w
                              /\ Py.eq (snd kv) w = true) (added src dst).
Proof.
  intros Hnd Hflat. apply Forall_forall. intros [k w] Hin.
  apply filter_In in Hin as [Hin _]. exists w. cbn [fst snd].
  pose proof (dict_get_NoDup_in _ _ _ Hnd Hin) as Hget. split; [assumption|].
  destruct (flat_get _ _ _ Hflat Hget) as [s ->]. apply scalar_eq_refl.
Qed.

Lemma merged_keys dst items k :
  In k (keys (merged items dst)) -> In k (keys items).
Proof.
  induction items as [|[key v] items IH]; cbn [merged]; [auto|].
  destruct (Py.dict_get dst key); cbn [keys map fst In]; intuition.
Qed.

Lemma dict_contains_iff {A} (d : list (string * A)) k :
  Py.dict_contains d k = true <-> In k (map fst d).
Proof.
  split; [|apply dict_contains_in]. unfold Py.dict_contains.
  destruct (Py.dict_get d k) eqn:Hget; [|discriminate].
  intros _. now apply dict_get_Some_in in Hget.
Qed.

Lemma merged_length dst items :
  List.length (merged items dst)
  = List.length (filter (Py.dict_contains dst) (keys items)).
Proof.
  induction items as [|[key v] items IH]; [reflexivity|].
  cbn [merged keys map fst filter]. unfold Py.dict_contains at 1.
  destruct (Py.dict_get dst key); cbn [List.length]; now rewrite IH.
Qed.

Lemma added_length src items :
  List.length (added src items)
  = List.length (filter (fun k => negb (Py.dict_contains src k)) (keys items)).
Proof.
  induction items as [|[key w] items IH]; [reflexivity|].
  cbn [added keys map fst filter].
  destruct (Py.dict_contains src key); cbn [negb List.length]; unfold added in IH;
    now rewrite IH.
Qed.

Lemma filter_split_length {A} (f : A -> bool) l :
  (List.length (filter f l) + List.length (filter (fun x => negb (f x)) l)
   = List.length l)%nat.
Proof.
  induction l as [|x l IH]; [reflexivity|]. cbn [filter].
  destruct (f x); cbn [negb List.length]; lia.
Qed.

(** Two objects have as many keys of the one in the other as the other
    way round. *)
Lemma common_keys_length (src dst : dict) :
  NoDup (keys src) -> NoDup (keys dst) ->
  List.length (filter (Py.dict_contains dst) (keys src))
  = List.length (filter (Py.dict_contains src) (keys dst)).
Proof.
  intros Hs Hd. apply Nat.le_antisymm;
    (apply NoDup_incl_length; [now apply NoDup_filter|]);
    intros k Hk; apply filter_In in Hk as [Hin Hc]; apply filter_In;
    (split; [now apply dict_contains_iff in Hc|now apply dict_contains_iff]).
Qed.

(** X12.  The diff works on objects with scalar values: when [dst] holds
    scalars only and no key of [src] or [dst] has a [/] in it (nor occurs
    twice), applying [make_patch(src, dst)] to [src] raises nothing and
    leaves a document equal to [dst]. *)
Theorem make_patch_flat_round_trip src dst :
  NoDup (keys src) -> NoDup (keys dst) ->
  flat dst ->
  Forall (fun k => no_slash k = true) (keys src ++ keys dst) ->
  exists doc,
    JsonPatch_apply (make_patch src dst) (VDict src) = (doc, Ok tt)
    /\ Py.eq doc (VDict dst) = true.
Proof.
  intros Hs Hd Hflat Hns. apply Forall_app in Hns as [Hns_src Hns_dst].
  exists (VDict (merged src dst ++ added src dst)). split.
  - unfold make_patch, compare_dict. rewrite JsonPatch_apply_app.
    pose proof (src_keys_run dst src Hflat [] Hs Hns_src) as Hrun.
    cbn [app] in Hrun. rewrite Hrun.
    apply dst_keys_run; auto. intros k _ Hk.
    apply dict_get_None_notin. intros Hin. apply merged_keys in Hin.
    apply dict_contains_iff in Hin. congruence.
  - apply eq_dict_intro.
    + rewrite length_app, merged_length, added_length, common_keys_length by assumption.
      rewrite filter_split_length. unfold keys. apply length_map.
    + apply Forall_app. split; [now apply merged_entries|now apply added_entries].
Qed.

(** The objects of the docstring of [make_patch], without the list. *)
Lemma make_patch_flat_round_trip_witness :
  exists doc,
    JsonPatch_apply
      (make_patch [("foo", str "bar"); ("n", num 1)] [("baz", str "qux"); ("n", num 4)])
      (VDict [("foo", str "bar"); ("n", num 1)]) = (doc, Ok tt)
    /\ Py.eq doc (VDict [("baz", str "qux"); ("n", num 4)]) = true.
Proof.
  apply make_patch_flat_round_trip.
  - unfold keys; cbn; repeat constructor; cbn; intuition discriminate.
  - unfold keys; cbn; repeat constructor; cbn; intuition discriminate.
  - unfold flat; repeat (constructor; [eexists; reflexivity|]); constructor.
  - unfold keys; cbn; repeat constructor.
Defined.

(** ** Indices written by the diff, read by the resolution *)

Lemma digits_of_uint d :
  forall acc,
    Py.digits (Z.of_nat acc) (NilEmpty.string_of_uint d)
    = Some (Z.of_nat (Nat.of_uint_acc d acc)).
Proof.
  induction d as [|d IH|d IH|d IH|d IH|d IH|d IH|d IH|d IH|d IH|d IH]; intros acc;
    cbn [NilEmpty.string_of_uint Py.digits Nat.of_uint_acc]; [reflexivity|..];
    match goal with
    | |- context [Py.digit_of ?c] =>
        let r := eval vm_compute in (Py.digit_of c) in
        change (Py.digit_of c) with r
    end;
    cbn beta iota; rewrite <- IH; f_equal;
    rewrite ?Nat2Z.inj_succ, Nat.tail_mul_spec; lia.
Qed.

Lemma to_uint_not_Nil n : Nat.to_uint n <> Decimal.Nil.
Proof.
  intros H. pose proof (DecimalNat.Unsigned.of_to n) as Hn. rewrite H in Hn.
  cbn in Hn. subst n. discriminate.
Qed.

(** [int(str(n)) == n] *)
Lemma int_str n : Py.int (Py.str n) = Some (Z.of_nat n).
Proof.
  unfold Py.str. pose proof (DecimalNat.Unsigned.of_to n) as Hn.
  pose proof (to_uint_not_Nil n) as Hnil.
  unfold Nat.of_uint in Hn. rewrite <- Hn at 2.
  destruct (Nat.to_uint n) as [|d|d|d|d|d|d|d|d|d|d]; [congruence|..];
    cbn [NilEmpty.string_of_uint]; unfold Py.int; cbn [Py.lstrip];
    match goal with
    | |- context [Py.is_space ?c] =>
        change (Py.is_space c) with false
    end;
    cbn beta iota; unfold Py.unsigned;
    match goal with
    | |- context [Py.digit_of ?c] =>
        let r := eval vm_compute in (Py.digit_of c) in
        change (Py.digit_of c) with r
    end;
    cbn beta iota; cbn [Nat.of_uint_acc];
    rewrite <- digits_of_uint; f_equal.
Qed.

Lemma no_slash_of_uint d : no_slash (NilEmpty.string_of_uint d) = true.
Proof.
  induction d; cbn [NilEmpty.string_of_uint no_slash]; [reflexivity|..];
    rewrite IHd; reflexivity.
Qed.

Lemma no_slash_str n : no_slash (Py.str n) = true.
Proof. apply no_slash_of_uint. Qed.

(** ** Locations written by the diff, split by the resolution *)

Lemma split_append_slash s rest :
  no_slash s = true ->
  Py.split "/" (String.append s (String "/" rest)) = s :: Py.split "/" rest.
Proof.
  induction s as [|c s IH]; cbn [no_slash String.append Py.split].
  - intros _. now rewrite Ascii.eqb_refl.
  - intros H. apply andb_true_iff in H as [Hc Hs]. apply negb_true_iff in Hc.
    now rewrite Hc, (IH Hs).
Qed.

(** [s.split('/')] undoes ['/'.join(segs)] when no segment has a [/]. *)
Lemma split_join segs :
  segs <> [] ->
  Forall (fun seg => no_slash seg = true) segs ->
  Py.split "/" (Py.join "/" segs) = segs.
Proof.
  unfold Py.join. induction segs as [|x segs IH]; intros Hne Hall; [congruence|].
  inversion Hall as [|? ? Hx Hsegs]; subst.
  destruct segs as [|y segs].
  - cbn [String.concat]. now apply split_no_slash.
  - change (String.concat "/" (x :: y :: segs))
      with (String.append x (String "/" (String.concat "/" (y :: segs)))).
    rewrite (split_append_slash _ _ Hx), IH; [reflexivity|discriminate|assumption].
Qed.

Lemma points_to_generated init seg :
  Forall (fun s => no_slash s = true) init ->
  no_slash seg = true ->
  points_to (loc ("" :: init ++ [seg])) init seg.
Proof.
  intros Hinit Hseg. unfold points_to, loc. cbn [split_location].
  rewrite split_join; [reflexivity|discriminate|].
  constructor; [reflexivity|]. apply Forall_app. auto.
Qed.

(** ** Operations at the indices of a list *)

Lemma firstn_middle {A} (pre post : list A) : firstn (List.length pre) (pre ++ post) = pre.
Proof. now rewrite firstn_app, Nat.sub_diag, firstn_all, firstn_O, app_nil_r. Qed.

Lemma skipn_middle {A} (pre post : list A) : skipn (List.length pre) (pre ++ post) = post.
Proof. now rewrite skipn_app, Nat.sub_diag, skipn_all. Qed.

Lemma skipn_S_middle {A} (pre : list A) x post :
  skipn (S (List.length pre)) (pre ++ x :: post) = post.
Proof.
  rewrite (app_cons_assoc pre x post).
  replace (S (List.length pre)) with (List.length (pre ++ [x]))
    by (rewrite length_app; cbn; lia).
  apply skipn_middle.
Qed.

Lemma nth_error_middle {A} (pre : list A) x post :
  nth_error (pre ++ x :: post) (List.length pre) = Some x.
Proof. rewrite nth_error_app2, Nat.sub_diag by lia. reflexivity. Qed.

Lemma _step_middle pre x post :
  _step (VList (pre ++ x :: post)) (Py.str (List.length pre)) true
  = Ok (x, KIdx (Py.len pre)).
Proof.
  cbn [_step]. rewrite int_str. fold (Py.len pre).
  assert (Py.len pre < Py.len (pre ++ x :: post)) as Hlt
    by (unfold Py.len; rewrite length_app; cbn [List.length]; lia).
  destruct (Z.geb_spec (Py.len pre) (Py.len (pre ++ x :: post))); [lia|].
  unfold Py.list_getitem. rewrite norm_index_nonneg by (unfold Py.len in *; lia).
  unfold Py.len. rewrite Nat2Z.id, nth_error_middle. reflexivity.
Qed.

Lemma run_remove_index doc init pre x post :
  Forall (fun s => no_slash s = true) init ->
  walk doc init = Ok (VList (pre ++ x :: post)) ->
  run_operation (remove_at ("" :: init ++ [Py.str (List.length pre)])) doc
  = (store doc init (VList (pre ++ post)), Ok tt).
Proof.
  intros Hinit Hwalk.
  pose proof (points_to_generated init _ Hinit (no_slash_str (List.length pre))) as Hpt.
  unfold run_operation, bind, pure.
  change (_get_operation (remove_at ?p))
    with (Ok (mkOp RemoveOperation (loc p) (remove_at p))).
  unfold PatchOperation_apply. cbn [cls location operation].
  rewrite RemoveOperation_apply_eq, (locate_points_to _ _ _ _ _ Hpt),
    (parent_parts_points_to _ _ _ Hpt), Hwalk.
  cbn [rbind]. rewrite _step_middle. cbn [rbind Py.delitem].
  unfold Py.list_delitem.
  rewrite norm_index_nonneg
    by (unfold Py.len; rewrite length_app; cbn [List.length]; lia).
  unfold Py.len. rewrite Nat2Z.id, firstn_middle, skipn_S_middle. reflexivity.
Qed.

Lemma run_replace_index doc init pre x post v :
  Forall (fun s => no_slash s = true) init ->
  walk doc init = Ok (VList (pre ++ x :: post)) ->
  run_operation (replace_at ("" :: init ++ [Py.str (List.length pre)]) v) doc
  = (store doc init (VList (pre ++ v :: post)), Ok tt).
Proof.
  intros Hinit Hwalk.
  pose proof (points_to_generated init _ Hinit (no_slash_str (List.length pre))) as Hpt.
  unfold run_operation, bind, pure.
  change (_get_operation (replace_at ?p v))
    with (Ok (mkOp ReplaceOperation (loc p) (replace_at p v))).
  unfold PatchOperation_apply. cbn [cls location operation].
  rewrite (ReplaceOperation_apply_eq _ (replace_at _ v) _ v eq_refl),
    (locate_points_to _ _ _ _ _ Hpt), (parent_parts_points_to _ _ _ Hpt), Hwalk.
  cbn [rbind]. rewrite _step_middle. cbn [rbind replace_in].
  assert (0 <= Py.len pre < Py.len (pre ++ x :: post)) as Hk
    by (unfold Py.len; rewrite length_app; cbn [List.length]; lia).
  destruct (Z.gtb_spec (Py.len pre) (Py.len (pre ++ x :: post))); [lia|].
  destruct (Z.ltb_spec (Py.len pre) 0); [lia|]. cbn [orb Py.setitem].
  unfold Py.list_setitem. rewrite norm_index_nonneg by lia.
  unfold Py.len. rewrite Nat2Z.id, firstn_middle, skipn_S_middle. reflexivity.
Qed.

Lemma run_append_index doc init l v :
  Forall (fun s => no_slash s = true) init ->
  walk doc init = Ok (VList l) ->
  run_operation (add_at ("" :: init ++ [Py.str (List.length l)]) v) doc
  = (store doc init (VList (l ++ [v])), Ok tt).
Proof.
  intros Hinit Hwalk.
  pose proof (points_to_generated init _ Hinit (no_slash_str (List.length l))) as Hpt.
  unfold run_operation, bind, pure.
  change (_get_operation (add_at ?p v))
    with (Ok (mkOp AddOperation (loc p) (add_at p v))).
  unfold PatchOperation_apply. cbn [cls location operation].
  rewrite (AddOperation_apply_eq _ (add_at _ v) _ v eq_refl),
    (locate_points_to _ _ _ _ _ Hpt), (parent_parts_points_to _ _ _ Hpt), Hwalk.
  cbn [rbind _step]. rewrite int_str. fold (Py.len l).
  destruct (Z.geb_spec (Py.len l) (Py.len l)); [|lia]. cbn [rbind add_to].
  destruct (Z.gtb_spec (Py.len l) (Py.len l)); [lia|].
  destruct (Z.ltb_spec (Py.len l) 0); [unfold Py.len in *; lia|]. cbn [orb].
  rewrite list_insert_inserted by (unfold Py.len; lia).
  now rewrite inserted_append.
Qed.

(** ** The diff of two lists, applied *)

Lemma indices_run obj init parent :
  Forall (fun s => no_slash s = true) init ->
  walk obj init = Ok parent ->
  forall src dst pre,
    scalars dst ->
    (List.length dst <= S (List.length src))%nat ->
    JsonPatch_apply
      (indices compare_values ("" :: init) (List.length pre) src dst)
      (store obj init (VList (pre ++ src)))
    = (store obj init (VList (pre ++ dst)), Ok tt).
Proof.
  intros Hinit Hwalk.
  assert (forall l, walk (store obj init (VList l)) init = Ok (VList l)) as Hat
    by (intros l; exact (walk_store _ _ _ _ Hwalk)).
  assert (forall l l', store (store obj init (VList l)) init (VList l')
                       = store obj init (VList l')) as Htwice
    by (intros l l'; exact (store_twice _ _ _ _ _ Hwalk)).
  assert (forall (pre : list value) x, S (List.length pre) = List.length (pre ++ [x]))
    as Hsnoc by (intros; rewrite length_app; cbn; lia).
  induction src as [|s src IH]; intros dst pre Hsc Hlen.
  - cbn [indices]. destruct dst as [|d [|d' dst]]; [reflexivity| |cbn in Hlen; lia].
    cbn [only_dst app]. rewrite JsonPatch_apply_cons, app_nil_r.
    rewrite (run_append_index _ _ _ d Hinit (Hat pre)), Htwice. reflexivity.
  - cbn [indices]. destruct dst as [|d dst].
    + rewrite JsonPatch_apply_app, (Hsnoc pre s), (app_cons_assoc pre s src).
      rewrite IH by (try constructor; cbn; lia).
      rewrite JsonPatch_apply_cons, app_nil_r.
      change (("" :: init) ++ [Py.str (List.length pre)])
        with ("" :: init ++ [Py.str (List.length pre)]).
      rewrite (run_remove_index _ _ pre s [] Hinit (Hat _)), Htwice. reflexivity.
    + inversion Hsc as [|? ? [sc ->] Hsc']; subst.
      rewrite JsonPatch_apply_app, (Hsnoc pre s), (app_cons_assoc pre s src).
      rewrite IH by (auto; cbn in Hlen; lia).
      rewrite compare_values_scalar, JsonPatch_apply_cons.
      rewrite <- (app_cons_assoc pre s dst).
      change (("" :: init) ++ [Py.str (List.length pre)])
        with ("" :: init ++ [Py.str (List.length pre)]).
      rewrite (run_replace_index _ _ pre s dst (VScalar sc) Hinit (Hat _)), Htwice.
      reflexivity.
Qed.

(** X13.  Where the diff of two lists works: let the document hold the list
    [src] at [/init...], with no [/] inside the steps of [init].  When
    [dst] holds scalars only and is at most one element longer than
    [src], applying what [compare_list] yields for that path raises
    nothing and leaves the document with [dst] in the place of [src]. *)
Theorem compare_list_apply obj init src dst :
  Forall (fun s => no_slash s = true) init ->
  walk obj init = Ok (VList src) ->
  scalars dst ->
  (List.length dst <= S (List.length src))%nat ->
  JsonPatch_apply (compare_list ("" :: init) src dst) obj
  = (store obj init (VList dst), Ok tt).
Proof.
  intros Hinit Hwalk Hsc Hlen.
  pose proof (indices_run obj init _ Hinit Hwalk src dst [] Hsc Hlen) as H.
  cbn [app List.length] in H. rewrite (store_same _ _ _ Hwalk) in H. exact H.
Qed.

(** The lists of the docstring of [make_patch]. *)
Lemma compare_list_apply_witness :
  JsonPatch_apply
    (compare_list [""; "numbers"] [num 1; num 3; num 4; num 8] [num 1; num 4; num 7])
    (VDict [("foo", str "bar"); ("numbers", VList [num 1; num 3; num 4; num 8])])
  = (VDict [("foo", str "bar"); ("numbers", VList [num 1; num 4; num 7])], Ok tt).
Proof.
  refine (compare_list_apply
            (VDict [("foo", str "bar"); ("numbers", VList [num 1; num 3; num 4; num 8])])
            ["numbers"] [num 1; num 3; num 4; num 8] [num 1; num 4; num 7]
            _ eq_refl _ _).
  - repeat constructor.
  - unfold scalars, num; repeat (constructor; [eexists; reflexivity|]); constructor.
  - cbn. lia.
Defined.

(** ** Move between two keys *)

(** X16.  A Move renames a key: when [path] and [to] name two different keys
    [a] and [b] of the same dict, [a] present and [b] absent, the Move
    returns; the dict then holds under [b] the value that [a] had, keeps
    the values of its other keys, and has lost [a]. *)
Theorem MoveOperation_between_keys obj path item to init a b d v :
  field item "to" = Ok to ->
  points_to path init a ->
  points_to to init b ->
  a <> b ->
  walk obj init = Ok (VDict d) ->
  Py.dict_get d a = Some v ->
  Py.dict_get d b = None ->
  exists d',
    MoveOperation_apply path item obj = (store obj init (VDict d'), Ok tt)
    /\ Py.dict_get d' b = Some v
    /\ (forall k, k <> a -> k <> b -> Py.dict_get d' k = Py.dict_get d k)
    /\ (NoDup (keys d) -> Py.dict_get d' a = None).
Proof.
  intros Hto Hpath Hdest Hab Hwalk Ha Hb.
  destruct (dict_delitem_present _ _ _ Ha) as [d1 Hdel].
  exists (Py.dict_setitem d1 b v).
  assert (Py.dict_get d1 b = None) as Hb1
    by (rewrite (dict_delitem_other d d1 a b Hdel); auto).
  split; [|split; [apply dict_get_setitem_same|split]].
  - assert (locate obj path true = Ok (VDict d, KStr a)) as Hloc.
    { rewrite (locate_points_to _ _ _ _ _ Hpath), Hwalk. cbn [rbind _step].
      now rewrite Ha. }
    assert (RemoveOperation_apply path item obj = (store obj init (VDict d1), Ok tt))
      as Hrm.
    { rewrite RemoveOperation_apply_eq, Hloc. cbn [Py.delitem]. rewrite Hdel.
      cbn [option_map of_option]. now rewrite (parent_parts_points_to _ _ _ Hpath). }
    assert (AddOperation_apply to [("value", v)] (store obj init (VDict d1))
            = (store obj init (VDict (Py.dict_setitem d1 b v)), Ok tt)) as Hadd.
    { rewrite (AddOperation_apply_eq _ [("value", v)] _ v eq_refl),
        (locate_points_to _ _ _ _ _ Hdest), (parent_parts_points_to _ _ _ Hdest),
        (walk_store _ _ _ _ Hwalk).
      cbn [rbind _step]. rewrite Hb1. cbn [rbind add_to].
      unfold Py.dict_contains. rewrite Hb1.
      now rewrite (store_twice _ _ _ _ _ Hwalk). }
    unfold MoveOperation_apply.
    unfold bind at 1 2 3 4 5; unfold pure at 1 2 3; unfold read. cbn beta iota.
    rewrite Hloc. cbn [Py.getitem]. rewrite Ha. cbn [of_option].
    rewrite Hrm, Hto. exact Hadd.
  - intros k Hka Hkb. rewrite dict_get_setitem_other by auto.
    now apply (dict_delitem_other d d1 a k).
  - intros Hnd. rewrite dict_get_setitem_other by auto.
    now apply (dict_delitem_gone d d1 a).
Qed.

(** [{move: "/baz", to: "/qux"}] on [{"baz": 1, "other": 2}]. *)
Lemma MoveOperation_between_keys_witness :
  exists d',
    MoveOperation_apply (str "/baz") [("move", str "/baz"); ("to", str "/qux")]
      (VDict [("baz", num 1); ("other", num 2)])
    = (store (VDict [("baz", num 1); ("other", num 2)]) [] (VDict d'), Ok tt)
    /\ Py.dict_get d' "qux" = Some (num 1)
    /\ (forall k, k <> "baz" -> k <> "qux" ->
        Py.dict_get d' k = Py.dict_get [("baz", num 1); ("other", num 2)] k)
    /\ (NoDup (keys [("baz", num 1); ("other", num 2)]) -> Py.dict_get d' "baz" = None).
Proof.
  refine (MoveOperation_between_keys (VDict [("baz", num 1); ("other", num 2)])
            (str "/baz") [("move", str "/baz"); ("to", str "/qux")] (str "/qux")
            [] "baz" "qux" [("baz", num 1); ("other", num 2)] (num 1)
            eq_refl eq_refl eq_refl _ eq_refl eq_refl eq_refl).
  discriminate.
Defined.
